(** * A shallow embedding of [model.py]: a small Transformer encoder

    The Python module defines three Keras layers: [Encodings] (token
    embedding plus positional embedding), [Attention] (multi-head
    self-attention without masking and without a non-linearity on the
    output) and [_Model] (a stack of attention layers followed by pooling
    and a linear head).

    Tensors are nested lists of real numbers: the float32/float64 values of
    the framework are idealised as elements of [R], so that [sin], [cos],
    [exp], [sqrt] and real powers are the mathematical functions.  Sizes and
    indices are natural numbers, token ids are integers.  An operation that
    raises in Python (an out-of-range embedding lookup, incompatible
    broadcasting, a reshape whose missing dimension cannot be inferred, an
    index error, a division by zero) returns [None]. *)

From Stdlib Require Import String Reals ZArith Lia Lra Bool Arith List.
Import ListNotations.

(** ** Tensors as nested lists *)

Abbreviation vec := (list R).
Abbreviation mat := (list (list R)).
Abbreviation tensor3 := (list (list (list R))).
Abbreviation tensor4 := (list (list (list (list R)))).
Abbreviation tensor5 := (list (list (list (list (list R))))).

(** ** The error monad *)

Definition bind {A B : Type} (c : option A) (k : A -> option B) : option B :=
  match c with
  | Some a => k a
  | None => None
  end.

Notation "x <- c ;; k" := (bind c (fun x => k))
  (at level 61, c at next level, right associativity).
Notation "' p <- c ;; k" := (bind c (fun x => let p := x in k))
  (at level 61, p pattern, c at next level, right associativity).

Fixpoint mapM {A B : Type} (f : A -> option B) (l : list A) : option (list B) :=
  match l with
  | [] => Some []
  | a :: t => b <- f a ;; bs <- mapM f t ;; Some (b :: bs)
  end.

Fixpoint mapM2 {A B C : Type} (f : A -> B -> option C)
  (l1 : list A) (l2 : list B) : option (list C) :=
  match l1, l2 with
  | a :: t1, b :: t2 => c <- f a b ;; cs <- mapM2 f t1 t2 ;; Some (c :: cs)
  | _, _ => Some []
  end.

(** ** Elementary vector operations *)

Fixpoint map2 {A B C : Type} (f : A -> B -> C) (l1 : list A) (l2 : list B) : list C :=
  match l1, l2 with
  | a :: t1, b :: t2 => f a b :: map2 f t1 t2
  | _, _ => []
  end.

Definition sum (v : vec) : R := fold_right Rplus 0%R v.

Definition dot (x y : vec) : R := sum (map2 Rmult x y).

(** Column [j] of a matrix stored as a list of rows. *)
Definition col (j : nat) (m : mat) : vec := map (fun row => nth j row 0%R) m.

(** [x @ m] for a row vector [x] and a matrix [m] with [w] columns. *)
Definition vecmat (w : nat) (x : vec) (m : mat) : vec :=
  map (fun t => dot x (col t m)) (seq 0 w).

(** Update of a list at an index: the model of an indexed assignment. *)
Fixpoint upd {A : Type} (l : list A) (i : nat) (x : A) : list A :=
  match l, i with
  | [], _ => []
  | _ :: t, O => x :: t
  | h :: t, S j => h :: upd t j x
  end.

(** Shapes of nested lists. *)
Definition shape2 {A : Type} (r c : nat) (m : list (list A)) : Prop :=
  length m = r /\ Forall (fun row => length row = c) m.
Definition shape3 {A : Type} (b r c : nat) (t : list (list (list A))) : Prop :=
  length t = b /\ Forall (shape2 r c) t.
Definition shape4 {A : Type} (b h r c : nat) (t : list (list (list (list A)))) : Prop :=
  length t = b /\ Forall (shape3 h r c) t.
Definition shape5 {A : Type} (l b h r c : nat)
  (t : list (list (list (list (list A))))) : Prop :=
  length t = l /\ Forall (shape4 b h r c) t.

(** ** The part of numpy the module uses *)

Module np.

Definition zeros (n : nat) : vec := repeat 0%R n.

(** [np.zeros((r, c))] *)
Definition zeros2 (r c : nat) : mat := repeat (zeros c) r.

(** [np.power(n, y)] for a positive base and a float exponent. *)
Definition power (n y : R) : R := Rpower n y.

(** [P[k, j] = v].  numpy raises on an index outside the array; the loops
    of [get_sin_pos_emb_mat] never leave it. *)
Definition setitem (P : mat) (k j : nat) (v : R) : mat :=
  upd P k (upd (nth k P []) j v).

End np.

(** ** The part of TensorFlow the module uses *)

Module tf.

(** [tf.range(n)] *)
Definition range (n : nat) : list Z := map Z.of_nat (seq 0 n).

(** Broadcasting of one axis: equal sizes are paired, a size-1 axis is
    stretched, anything else is a shape error. *)
Definition broadcast {A B C : Type} (f : A -> B -> option C)
  (x : list A) (y : list B) : option (list C) :=
  if length x =? length y then mapM2 f x y
  else match x, y with
       | [a], _ => mapM (f a) y
       | _, [b] => mapM (fun a => f a b) x
       | _, _ => None
       end.

Definition add1 (x y : vec) : option vec :=
  broadcast (fun a b => Some (a + b)%R) x y.

Definition add2 (x y : mat) : option mat := broadcast add1 x y.

(** [x + p] for [x] of rank 3 and [p] of rank 2: [p] is given a leading
    axis of size 1, which is stretched over the batch. *)
Definition add3_2 (x : tensor3) (p : mat) : option tensor3 :=
  mapM (fun m => add2 m p) x.

(** [x * s] for a scalar [s]. *)
Definition mul_scalar3 (x : tensor3) (s : R) : tensor3 :=
  map (map (map (fun a => a * s)%R)) x.

(** [x / s] for a rank-4 [x] and a Python float [s]. *)
Definition div_scalar4 (x : tensor4) (s : R) : tensor4 :=
  map (map (map (map (fun a => a / s)%R))) x.

(** Row-major rows of width [w] of a flat buffer. *)
Definition rows_of {A : Type} (w : nat) (flat : list A) : list (list A) :=
  map (fun i => firstn w (skipn (i * w) flat)) (seq 0 (length flat / w)).

(** [tf.reshape(x, (b, -1, ...))] seen from one element of the leading
    axis, whose row-major buffer is [flat]; [w] is the product of the
    sizes after the [-1].  The buffer must divide evenly into rows of
    width [w].  What the framework does when a given size is zero differs
    between its versions and is left undefined here. *)
Definition reshape_infer {A : Type} (w : nat) (flat : list A)
  : option (list (list A)) :=
  if w =? 0 then None
  else if length flat mod w =? 0 then Some (rows_of w flat)
  else None.

(** Exchange of the two leading axes of [t], whose second axis has size
    [n]: the per-batch-element view of [tf.transpose(_, perm=[0,2,1,3])]. *)
Definition transpose01 {A : Type} (n : nat) (t : list (list (list A)))
  : list (list (list A)) :=
  map (fun h => map (fun row => nth h row []) t) (seq 0 n).

(** [tf.matmul(a, b, transpose_b=True)] on the two trailing axes. *)
Definition matmul_nt (a b : mat) : mat :=
  map (fun ai => map (fun bj => dot ai bj) b) a.

(** [tf.matmul(a, b)] on the two trailing axes; [w] is the number of
    columns of [b]. *)
Definition matmul (w : nat) (a b : mat) : mat :=
  map (fun ai => vecmat w ai b) a.

(** [tf.nn.softmax(_, axis=-1)] on one row. *)
Definition softmax (v : vec) : vec :=
  map (fun x => exp x / sum (map exp v))%R v.

Definition softmax4 (x : tensor4) : tensor4 := map (map (map softmax)) x.

(** [tf.gather(x, i, axis=1)] *)
Definition gather1 (x : tensor3) (i : nat) : option mat :=
  mapM (fun m => nth_error m i) x.

(** [tf.reduce_sum(x, axis=1)] for [x] whose last axis has size [w]. *)
Definition reduce_sum1 (w : nat) (x : tensor3) : mat :=
  map (fun m => map (fun j => sum (col j m)) (seq 0 w)) x.

(** The shape of a rank-4 tensor with non-empty leading axes. *)
Definition shape_of4 (t : tensor4) : nat * nat * nat * nat :=
  let t1 := hd [] t in
  let t2 := hd [] t1 in
  let t3 := hd [] t2 in
  (length t, length t1, length t2, length t3).

Definition shape_eqb (s1 s2 : nat * nat * nat * nat) : bool :=
  let '(a1, b1, c1, d1) := s1 in
  let '(a2, b2, c2, d2) := s2 in
  (a1 =? a2) && (b1 =? b2) && (c1 =? c2) && (d1 =? d2).

(** [tf.convert_to_tensor(l)] for a Python list of rank-4 tensors: the
    list is stacked along a new leading axis, which needs equal shapes. *)
Definition convert_to_tensor (l : list tensor4) : option tensor5 :=
  if forallb (fun t => shape_eqb (shape_of4 t) (shape_of4 (hd [] l))) l
  then Some l else None.

End tf.

(** ** Keras layers used as building blocks *)

Module Embedding.

(** [Embedding(input_dim, output_dim)]: a table with one row per id. *)
Record t : Type := mk {
  input_dim : nat;
  output_dim : nat;
  embeddings : mat
}.

(** One lookup.  A negative id counts from the end of the table; an id
    that is outside the table after that is an error. *)
Definition lookup (self : t) (id : Z) : option vec :=
  let n := Z.of_nat (input_dim self) in
  let id := if (id <? 0)%Z then (id + n)%Z else id in
  if (0 <=? id)%Z && (id <? n)%Z
  then nth_error (embeddings self) (Z.to_nat id)
  else None.

(** The layer applied to a rank-1 tensor of ids. *)
Definition call1 (self : t) (ids : list Z) : option mat :=
  mapM (lookup self) ids.

(** The layer applied to a rank-2 tensor of ids. *)
Definition call2 (self : t) (batch : list (list Z)) : option tensor3 :=
  mapM (call1 self) batch.

End Embedding.

Module Dense.

(** [Dense(units)]: a kernel with one row per input feature and [units]
    columns, and a bias of length [units]; no activation.  The framework
    creates the kernel at the first call, with as many rows as that input
    is wide, and refuses later inputs of another width; here the kernel is
    a field, and the properties of a call assume that it fits the input. *)
Record t : Type := mk {
  units : nat;
  kernel : mat;
  bias : vec
}.

(** The constructor: [Dense(0)] raises, the number of units must be
    positive.  [w] holds the values of the kernel and of the bias. *)
Definition __init__ (units : nat) (w : mat * vec) : option t :=
  if units =? 0 then None else Some (mk units (fst w) (snd w)).

Definition call1 (self : t) (x : vec) : vec :=
  map (fun j => dot x (col j (kernel self)) + nth j (bias self) 0)%R
      (seq 0 (units self)).

Definition call2 (self : t) (x : mat) : mat := map (call1 self) x.

Definition call3 (self : t) (x : tensor3) : tensor3 := map (call2 self) x.

End Dense.

(** ** [class Encodings] *)

Module Encodings.

(** The inner loop body of [get_sin_pos_emb_mat]: the two assignments for
    one pair of columns. *)
Definition fill_pair (d : nat) (n : R) (k : nat) (P : mat) (i : nat) : mat :=
  let denominator := np.power n (INR (2 * i) / INR d) in
  let P := np.setitem P k (2 * i) (sin (INR k / denominator)) in
  np.setitem P k (2 * i + 1) (cos (INR k / denominator)).

(** [for i in range(d // 2): ...] *)
Definition fill_row (d : nat) (n : R) (P : mat) (k : nat) : mat :=
  fold_left (fill_pair d n k) (seq 0 (d / 2)) P.

(** [get_sin_pos_emb_mat(self, seq_len, d, n)] *)
Definition get_sin_pos_emb_mat_n (seq_len d : nat) (n : R) : mat :=
  let P := np.zeros2 (seq_len + 1) d in
  fold_left (fill_row d n) (seq 0 (seq_len + 1)) P.

(** The call with the default argument [n = 10000]. *)
Definition get_sin_pos_emb_mat (seq_len d : nat) : mat :=
  get_sin_pos_emb_mat_n seq_len d 10000.

Record t : Type := mk {
  embedding_dim : nat;
  seq_length : nat;
  vocab_size : nat;
  pos_embedding_flag : bool;
  embedding_type : string;
  batch_size : nat;
  embedding : Embedding.t;
  random_pos_embedding : Embedding.t;
  sin_pos_embedding_mat : mat;
  sinusodial_pos_embedding : Embedding.t
}.

(** [__init__].  The two trainable tables are filled by the framework's
    initialiser; their values [w_tok] and [w_pos] are arguments here. *)
Definition __init__ (emb_dim seq_length vocab_size : nat) (pos_embedding : bool)
  (embedding_type : string) (w_tok w_pos : mat) : t :=
  let sin_pos_embedding_mat := get_sin_pos_emb_mat seq_length emb_dim in
  {| embedding_dim := emb_dim;
     seq_length := seq_length;
     vocab_size := vocab_size;
     pos_embedding_flag := pos_embedding;
     embedding_type := embedding_type;
     batch_size := 64;
     embedding := Embedding.mk (vocab_size + 2) emb_dim w_tok;
     random_pos_embedding := Embedding.mk (seq_length + 1) emb_dim w_pos;
     sin_pos_embedding_mat := sin_pos_embedding_mat;
     sinusodial_pos_embedding :=
       Embedding.mk (seq_length + 1) emb_dim sin_pos_embedding_mat |}.

(** The first two statements of [call]: lookup, then scaling. *)
Definition scaled_embedding (self : t) (batch : list (list Z)) : option tensor3 :=
  embedding_out <- Embedding.call2 (embedding self) batch ;;
  Some (tf.mul_scalar3 embedding_out (sqrt (INR (embedding_dim self)))).

(** [call(self, batch)] *)
Definition call (self : t) (batch : list (list Z)) : option tensor3 :=
  embedding_out <- scaled_embedding self batch ;;
  if pos_embedding_flag self && String.eqb (embedding_type self) "SIN_COS"
  then
    pos_embedding <- Embedding.call1 (sinusodial_pos_embedding self)
                       (tf.range (seq_length self + 1)) ;;
    tf.add3_2 embedding_out pos_embedding
  else
    pos_embedding <- Embedding.call1 (random_pos_embedding self)
                       (tf.range (seq_length self + 1)) ;;
    tf.add3_2 embedding_out pos_embedding.

End Encodings.

(** ** [class Attention] *)

Module Attention.

Record t : Type := mk {
  num_att_heads : nat;
  attention_head_size : nat;
  all_head_size : nat;
  emb_dim : nat;
  query : Dense.t;
  key : Dense.t;
  value : Dense.t;
  out : Dense.t
}.

(** Kernel and bias values of the four dense layers of one attention layer,
    as the framework's initialiser (or a training run) provides them. *)
Record weights : Type := mk_weights {
  w_query : mat * vec;
  w_key : mat * vec;
  w_value : mat * vec;
  w_out : mat * vec
}.

(** [__init__(self, num_heads, emb_dim)].  [int(emb_dim / num_heads)] raises
    [ZeroDivisionError] for [num_heads = 0]; otherwise the float quotient
    is truncated, which for [emb_dim] below [2^53] is the quotient
    [emb_dim / num_heads] of the integer division.  The four dense layers
    are constructed next: with more heads than [emb_dim] the head size is
    0, and [Dense(0)] raises. *)
Definition __init__ (num_heads emb_dim : nat) (w : weights) : option t :=
  if num_heads =? 0 then None
  else
    let attention_head_size := emb_dim / num_heads in
    let all_head_size := num_heads * attention_head_size in
    query <- Dense.__init__ all_head_size (w_query w) ;;
    key <- Dense.__init__ all_head_size (w_key w) ;;
    value <- Dense.__init__ all_head_size (w_value w) ;;
    out <- Dense.__init__ emb_dim (w_out w) ;;
    Some {| num_att_heads := num_heads;
            attention_head_size := attention_head_size;
            all_head_size := all_head_size;
            emb_dim := emb_dim;
            query := query;
            key := key;
            value := value;
            out := out |}.

(** [split_heads] on one batch element: reshape to
    [(-1, num_att_heads, attention_head_size)], then exchange the first two
    axes. *)
Definition split_heads1 (self : t) (m : mat) : option tensor3 :=
  r <- tf.reshape_infer (num_att_heads self * attention_head_size self)
         (concat m) ;;
  Some (tf.transpose01 (num_att_heads self)
          (map (tf.rows_of (attention_head_size self)) r)).

(** [split_heads(self, input_layer, hidden_states_shape)]; of the shape only
    its first entry [b] is used, as the size of the leading axis, which
    the list [input_layer] already has. *)
Definition split_heads (self : t) (input_layer : tensor3) (b : nat)
  : option tensor4 :=
  mapM (split_heads1 self) input_layer.

(** [call(self, hidden_states)] *)
Definition call (self : t) (hidden_states : tensor3) : option (tensor3 * tensor4) :=
  let mixed_query_layer := Dense.call3 (query self) hidden_states in
  let mixed_key_layer := Dense.call3 (key self) hidden_states in
  let mixed_value_layer := Dense.call3 (value self) hidden_states in
  let b := length hidden_states in
  query_layer <- split_heads self mixed_query_layer b ;;
  key_layer <- split_heads self mixed_key_layer b ;;
  value_layer <- split_heads self mixed_value_layer b ;;
  let attention_scores := map2 (map2 tf.matmul_nt) query_layer key_layer in
  let attention_scores :=
    tf.div_scalar4 attention_scores (sqrt (INR (attention_head_size self))) in
  let attention_probs := tf.softmax4 attention_scores in
  let context_layer :=
    map (fun c => tf.transpose01 (length (hd [] c)) c)
        (map2 (map2 (tf.matmul (attention_head_size self)))
              attention_probs value_layer) in
  context_layer <-
    mapM (fun c => tf.reshape_infer (emb_dim self) (concat (concat c)))
         context_layer ;;
  let att_output := Dense.call3 (out self) context_layer in
  Some (att_output, attention_probs).

End Attention.

(** ** [class _Model] *)

Module _Model.

Record t : Type := mk {
  encodings : Encodings.t;
  num_heads : nat;
  emb_dim : nat;
  agg_method : string;
  head_dim : nat;
  num_att_layers : nat;
  head : Dense.t;
  built : bool;
  att_layers : list Attention.t
}.

(** [__init__]; [w_head] holds the values of the head's kernel and bias.
    No argument is validated here; [head_size] is taken to be positive, as
    the constructor of the head needs it. *)
Definition __init__ (emb_dim seq_length vocab_size : nat) (pos_embedding : bool)
  (num_heads head_size : nat) (agg_method embedding_type : string)
  (num_att_layers : nat) (w_tok w_pos : mat) (w_head : mat * vec) : t :=
  {| encodings :=
       Encodings.__init__ emb_dim seq_length vocab_size pos_embedding
         embedding_type w_tok w_pos;
     num_heads := num_heads;
     emb_dim := emb_dim;
     agg_method := agg_method;
     head_dim := head_size;
     num_att_layers := num_att_layers;
     head := Dense.mk head_size (fst w_head) (snd w_head);
     built := false;
     att_layers := [] |}.

(** The loop of [build]: one fresh [Attention] per index, appended. *)
Fixpoint build_loop (num_heads emb_dim : nat) (ws : list Attention.weights)
  (idx : list nat) (acc : list Attention.t) : option (list Attention.t) :=
  match idx with
  | [] => Some acc
  | i :: rest =>
      a <- Attention.__init__ num_heads emb_dim
             (nth i ws (Attention.mk_weights ([], []) ([], []) ([], []) ([], []))) ;;
      build_loop num_heads emb_dim ws rest (acc ++ [a])
  end.

(** [build(self, input_shape)]; [ws] are the values the initialiser gives
    to the weights of the layers created here. *)
Definition build (self : t) (ws : list Attention.weights) : option t :=
  layers <- build_loop (num_heads self) (emb_dim self) ws
              (seq 0 (num_att_layers self)) [] ;;
  Some {| encodings := encodings self;
          num_heads := num_heads self;
          emb_dim := emb_dim self;
          agg_method := agg_method self;
          head_dim := head_dim self;
          num_att_layers := num_att_layers self;
          head := head self;
          built := true;
          att_layers := layers |}.

(** The loop of [call] over the attention layers. *)
Fixpoint att_loop (layers : list Attention.t) (idx : list nat)
  (att_op : tensor3) (att_scores_list : list tensor4)
  : option (tensor3 * list tensor4) :=
  match idx with
  | [] => Some (att_op, att_scores_list)
  | i :: rest =>
      layer <- nth_error layers i ;;
      '(att_op', att_scores) <- Attention.call layer att_op ;;
      att_loop layers rest att_op' (att_scores_list ++ [att_scores])
  end.

(** The pooling step of [call]. *)
Definition pool (self : t) (att_op : tensor3) : option mat :=
  if String.eqb (agg_method self) "TOKEN"
  then tf.gather1 att_op 0
  else Some (tf.reduce_sum1 (emb_dim self) att_op).

(** [call(self, input)] *)
Definition call (self : t) (input : list (list Z)) : option (mat * tensor5) :=
  op <- Encodings.call (encodings self) input ;;
  '(att_op, att_scores_list) <-
     att_loop (att_layers self) (seq 0 (num_att_layers self)) op [] ;;
  op <- pool self att_op ;;
  let op := Dense.call2 (head self) op in
  scores <- tf.convert_to_tensor att_scores_list ;;
  Some (op, scores).

(** Keras' [Layer.__call__]: [build] runs once, before the first [call];
    the layer object after the call is returned with the result. *)
Definition __call__ (self : t) (ws : list Attention.weights)
  (input : list (list Z)) : t * option (mat * tensor5) :=
  if built self then (self, call self input)
  else match build self ws with
       | Some self' => (self', call self' input)
       | None => (self, None)
       end.

(** A sequence of forward calls on one layer object. *)
Fixpoint calls (self : t) (ws : list Attention.weights)
  (inputs : list (list (list Z))) : t :=
  match inputs with
  | [] => self
  | x :: rest => calls (fst (__call__ self ws x)) ws rest
  end.

End _Model.

(** ** Specification-level definitions *)

(** Entry [(k, j)] of a matrix, [0] outside of it. *)
Definition entry (P : mat) (k j : nat) : R := nth j (nth k P []) 0%R.

(** The documented filling rule of the positional matrix:
    [P(k, 2i) = sin(k / n^(2i/d))] and [P(k, 2i+1) = cos(k / n^(2i/d))]. *)
Definition sin_cos_entry (d : nat) (n : R) (k j : nat) : R :=
  let i := (j / 2)%nat in
  let denominator := Rpower n (INR (2 * i) / INR d) in
  if Nat.even j then sin (INR k / denominator) else cos (INR k / denominator).

(** Every id of a batch is an index of a table with [n] rows. *)
Definition ids_in_range (n : nat) (batch : list (list Z)) : Prop :=
  Forall (Forall (fun id => (0 <= id < Z.of_nat n)%Z)) batch.

(** Entry [(b, k, j)] of a rank-3 tensor. *)
Definition entry3 (t : tensor3) (b k j : nat) : R := entry (nth b t []) k j.

(** The positional table [Encodings.call] adds: the fixed one in its first
    branch, the trainable one in the other. *)
Definition pos_table (self : Encodings.t) : mat :=
  if Encodings.pos_embedding_flag self
     && String.eqb (Encodings.embedding_type self) "SIN_COS"
  then Embedding.embeddings (Encodings.sinusodial_pos_embedding self)
  else Embedding.embeddings (Encodings.random_pos_embedding self).

(** The rows of the token table a batch selects. *)
Definition token_rows (self : Encodings.t) (batch : list (list Z)) : tensor3 :=
  map (map (fun id =>
              nth (Z.to_nat id)
                  (Embedding.embeddings (Encodings.embedding self)) []))
      batch.

(** The tables of an encoder have the sizes [__init__] gives them. *)
Record Encodings_wf (self : Encodings.t) : Prop := {
  wf_tok_dim :
    Embedding.input_dim (Encodings.embedding self) = Encodings.vocab_size self + 2;
  wf_tok :
    shape2 (Encodings.vocab_size self + 2) (Encodings.embedding_dim self)
      (Embedding.embeddings (Encodings.embedding self));
  wf_rand_dim :
    Embedding.input_dim (Encodings.random_pos_embedding self) =
    Encodings.seq_length self + 1;
  wf_rand :
    shape2 (Encodings.seq_length self + 1) (Encodings.embedding_dim self)
      (Embedding.embeddings (Encodings.random_pos_embedding self));
  wf_sin_dim :
    Embedding.input_dim (Encodings.sinusodial_pos_embedding self) =
    Encodings.seq_length self + 1;
  wf_sin :
    shape2 (Encodings.seq_length self + 1) (Encodings.embedding_dim self)
      (Embedding.embeddings (Encodings.sinusodial_pos_embedding self))
}.

Arguments wf_tok_dim {self} _.
Arguments wf_tok {self} _.
Arguments wf_rand_dim {self} _.
Arguments wf_rand {self} _.
Arguments wf_sin_dim {self} _.
Arguments wf_sin {self} _.

(** ** Multi-head attention as the specification words it *)

Module AttentionSpec.

(** The part of a projected vector that belongs to head [h]. *)
Definition head_slice (hs h : nat) (v : vec) : vec :=
  firstn hs (skipn (h * hs) v).

(** The rows of a projected matrix, seen by each of [H] heads. *)
Definition heads (H hs : nat) (M : mat) : tensor3 :=
  map (fun h => map (head_slice hs h) M) (seq 0 H).

(** Raw scores: query times key-transpose. *)
Definition raw_scores (Q K : mat) : mat :=
  map (fun q => map (fun k => dot q k) K) Q.

(** Scores divided by the square root of the head size. *)
Definition scaled_scores (hs : nat) (Q K : mat) : mat :=
  map (map (fun s => s / sqrt (INR hs))%R) (raw_scores Q K).

(** Softmax of one row of scores: the exponentials of the scores, each
    divided by their total. *)
Definition softmax (scores : vec) : vec :=
  let weights := map exp scores in
  let total := fold_right Rplus 0%R weights in
  map (fun wgt => wgt / total)%R weights.

(** Softmax over the key axis. *)
Definition probs (hs : nat) (Q K : mat) : mat :=
  map softmax (scaled_scores hs Q K).

(** The sum of the value vectors [V_j], each weighted by [p_j]. *)
Definition weighted_sum (hs : nat) (p : vec) (V : mat) : vec :=
  fold_right (map2 Rplus) (np.zeros hs)
             (map2 (fun pj vj => map (Rmult pj) vj) p V).

Definition head_context (hs : nat) (Q K V : mat) : mat :=
  map (fun p => weighted_sum hs p V) (probs hs Q K).

(** An affine map with [units] outputs: no activation follows it. *)
Definition affine (units : nat) (W : mat) (b : vec) (x : vec) : vec :=
  map (fun j => dot x (col j W) + nth j b 0)%R (seq 0 units).

(** The attention probabilities of one batch element, per head. *)
Definition attention_probs1 (self : Attention.t) (X : mat) : tensor3 :=
  let H := Attention.num_att_heads self in
  let hs := Attention.attention_head_size self in
  map2 (probs hs)
       (heads H hs (Dense.call2 (Attention.query self) X))
       (heads H hs (Dense.call2 (Attention.key self) X)).

(** The context vectors of one batch element, per head. *)
Definition contexts1 (self : Attention.t) (X : mat) : tensor3 :=
  let H := Attention.num_att_heads self in
  let hs := Attention.attention_head_size self in
  map2 (fun P V => map (fun p => weighted_sum hs p V) P)
       (attention_probs1 self X)
       (heads H hs (Dense.call2 (Attention.value self) X)).

(** The heads recombined: at every position the context vectors of all
    heads side by side. *)
Definition recombined1 (self : Attention.t) (X : mat) : mat :=
  map (fun i => concat (map (fun C => nth i C []) (contexts1 self X)))
      (seq 0 (length X)).

(** The output projection of the recombined heads. *)
Definition output1 (self : Attention.t) (X : mat) : mat :=
  map (affine (Attention.emb_dim self)
         (Dense.kernel (Attention.out self)) (Dense.bias (Attention.out self)))
      (recombined1 self X).

(** The layer on a batch: outputs and attention probabilities. *)
Definition attend (self : Attention.t) (hidden_states : tensor3)
  : tensor3 * tensor4 :=
  (map (output1 self) hidden_states, map (attention_probs1 self) hidden_states).

End AttentionSpec.

(** The sizes [Attention.__init__] establishes. *)
Record Attention_wf (self : Attention.t) : Prop := {
  wf_heads : 0 < Attention.num_att_heads self;
  wf_head_size :
    Attention.attention_head_size self =
    Attention.emb_dim self / Attention.num_att_heads self;
  wf_all :
    Attention.all_head_size self =
    Attention.num_att_heads self * Attention.attention_head_size self;
  wf_query : Dense.units (Attention.query self) = Attention.all_head_size self;
  wf_key : Dense.units (Attention.key self) = Attention.all_head_size self;
  wf_value : Dense.units (Attention.value self) = Attention.all_head_size self;
  wf_out : Dense.units (Attention.out self) = Attention.emb_dim self
}.

Arguments wf_heads {self} _.
Arguments wf_head_size {self} _.
Arguments wf_all {self} _.
Arguments wf_query {self} _.
Arguments wf_key {self} _.
Arguments wf_value {self} _.
Arguments wf_out {self} _.

(** A dense layer built for inputs of width [width]. *)
Definition Dense_fits (d : Dense.t) (width : nat) : Prop :=
  shape2 width (Dense.units d) (Dense.kernel d) /\
  length (Dense.bias d) = Dense.units d.

(** An attention layer whose projections are built for hidden states of
    width [width], and whose output projection is built for the context of
    width [emb_dim]. *)
Definition Attention_fits (self : Attention.t) (width : nat) : Prop :=
  Dense_fits (Attention.query self) width /\
  Dense_fits (Attention.key self) width /\
  Dense_fits (Attention.value self) width /\
  Dense_fits (Attention.out self) (Attention.emb_dim self).

(** ** Pooling as the specification words it *)

(** The elementwise sum of the position vectors of one sequence. *)
Definition sum_positions (d : nat) (X : mat) : vec :=
  fold_right (map2 Rplus) (np.zeros d) X.

(** The vector at sequence position 0. *)
Definition first_position (X : mat) : vec := nth 0 X [].

(** ** Concrete layers and inputs *)

(** An encoder for sequences of [seq_length = 2] tokens over a vocabulary
    of size 0, with embeddings of width 1. *)
Definition enc_len2 : Encodings.t :=
  Encodings.__init__ 1 2 0 true "SIN_COS" [[1]; [1]]%R [[0]; [0]; [0]]%R.

(** An encoder with [pos_embedding = False]. *)
Definition enc_nopos : Encodings.t :=
  Encodings.__init__ 1 0 0 false "RANDOM" [[1]; [1]]%R [[1]]%R.

(** Weights of an attention layer on embeddings of width 2: identity
    kernels and zero biases. *)
Definition w_id2 : Attention.weights :=
  let d := ([[1; 0]; [0; 1]]%R, [0; 0]%R) in
  Attention.mk_weights d d d d.

(** The layer [Attention(2, 2)] with these weights. *)
Definition att_2heads : Attention.t :=
  let d := Dense.mk 2 [[1; 0]; [0; 1]]%R [0; 0]%R in
  Attention.mk 2 1 2 2 d d d d.

(** One sequence of two positions of width 2. *)
Definition hidden_1x2x2 : tensor3 := [[[1; 0]; [0; 1]]]%R.

(** Weights of an attention layer on embeddings of width 1. *)
Definition w_id1 : Attention.weights :=
  let d := ([[1]]%R, [0]%R) in
  Attention.mk_weights d d d d.

(** A model for [seq_length = 2] with one attention layer of one head on
    embeddings of width 1; its encoder is [enc_len2]. *)
Definition model_len2 : _Model.t :=
  _Model.__init__ 1 2 0 true 1 1 "TOKEN" "SIN_COS" 1
    [[1]; [1]]%R [[0]; [0]; [0]]%R ([[1]]%R, [0]%R).

(** A model for [seq_length = 1] with one attention layer of two heads on
    embeddings of width 2 and a head of width 1. *)
Definition model_len1 (agg_method : string) : _Model.t :=
  _Model.__init__ 2 1 0 true 2 1 agg_method "SIN_COS" 1
    [[1; 0]; [0; 1]]%R [[0; 0]; [0; 0]]%R ([[1]; [1]]%R, [0]%R).

(** [model_len1] after [build] with the weights [w_id2]. *)
Definition model_len1_built (agg_method : string) : _Model.t :=
  let m := model_len1 agg_method in
  {| _Model.encodings := _Model.encodings m;
     _Model.num_heads := 2;
     _Model.emb_dim := 2;
     _Model.agg_method := agg_method;
     _Model.head_dim := 1;
     _Model.num_att_layers := 1;
     _Model.head := _Model.head m;
     _Model.built := true;
     _Model.att_layers := [att_2heads] |}.

(** Weights of an attention layer of two heads on embeddings of width 3:
    the projections keep the first two entries. *)
Definition w_2of3 : Attention.weights :=
  let d := ([[1; 0]; [0; 1]; [0; 0]]%R, [0; 0]%R) in
  Attention.mk_weights d d d
    ([[1; 0; 0]; [0; 1; 0]; [0; 0; 1]]%R, [0; 0; 0]%R).

(** The layer [Attention(2, 3)] with these weights: its head size is 1. *)
Definition att_2of3 : Attention.t :=
  let d := Dense.mk 2 [[1; 0]; [0; 1]; [0; 0]]%R [0; 0]%R in
  Attention.mk 2 1 2 3 d d d
    (Dense.mk 3 [[1; 0; 0]; [0; 1; 0]; [0; 0; 1]]%R [0; 0; 0]%R).

(** One sequence of three positions of width 3. *)
Definition hidden_1x3x3 : tensor3 := [[[1; 0; 0]; [0; 1; 0]; [0; 0; 1]]]%R.

(** * Properties *)

(** Shapes and id ranges of literal tensors are checked by evaluation. *)
Ltac literal_shape := split; [reflexivity|repeat constructor].
Ltac literal_ids := repeat constructor; cbn; lia.

(** ** Lists, options and shapes *)

Lemma length_upd {A : Type} (l : list A) (i : nat) (x : A) :
  length (upd l i x) = length l.
Proof.
  revert i; induction l as [|h t IH]; intros [|i]; simpl; auto.
Qed.

Lemma nth_upd_same {A : Type} (l : list A) (i : nat) (x d : A) :
  i < length l -> nth i (upd l i x) d = x.
Proof.
  revert i; induction l as [|h t IH]; intros [|i] Hi; simpl in *; try lia; auto.
  apply IH; lia.
Qed.

Lemma nth_upd_other {A : Type} (l : list A) (i j : nat) (x d : A) :
  j <> i -> nth j (upd l i x) d = nth j l d.
Proof.
  revert i j; induction l as [|h t IH]; intros [|i] [|j] Hij; simpl; auto; try lia.
Qed.

Lemma shape2_nth {A : Type} (r c : nat) (m : list (list A)) :
  shape2 r c m <->
  length m = r /\ forall k, k < r -> length (nth k m []) = c.
Proof.
  unfold shape2; split; intros [Hl H]; split; auto.
  - intros k Hk. rewrite Forall_forall in H. apply H, nth_In. lia.
  - apply Forall_forall. intros row Hin.
    destruct (In_nth _ _ [] Hin) as (k & Hk & <-). apply H. lia.
Qed.

Lemma shape2_zeros2 (r c : nat) : shape2 r c (np.zeros2 r c).
Proof.
  unfold np.zeros2, np.zeros; split.
  - apply repeat_length.
  - apply Forall_forall. intros row Hin.
    apply repeat_spec in Hin. subst. apply repeat_length.
Qed.

Lemma entry_zeros2 (r c k j : nat) : entry (np.zeros2 r c) k j = 0%R.
Proof.
  unfold entry, np.zeros2, np.zeros.
  destruct (Nat.lt_ge_cases k r) as [Hk|Hk].
  - rewrite nth_repeat_lt by assumption.
    destruct (Nat.lt_ge_cases j c) as [Hj|Hj].
    + now rewrite nth_repeat_lt.
    + apply nth_overflow. now rewrite repeat_length.
  - rewrite (nth_overflow (repeat (repeat 0%R c) r))
      by now rewrite repeat_length.
    now destruct j.
Qed.

(** ** The positional matrix *)

Lemma shape2_setitem (r c : nat) (P : mat) (k j : nat) (v : R) :
  shape2 r c P -> shape2 r c (np.setitem P k j v).
Proof.
  rewrite !shape2_nth. intros [Hl H]. unfold np.setitem. split.
  - now rewrite length_upd.
  - intros k' Hk'. destruct (Nat.eq_dec k' k) as [->|Hne].
    + rewrite nth_upd_same by lia. rewrite length_upd. now apply H.
    + rewrite nth_upd_other by assumption. now apply H.
Qed.

Lemma entry_setitem (r c : nat) (P : mat) (k j : nat) (v : R) (k' j' : nat) :
  shape2 r c P -> k < r -> j < c ->
  entry (np.setitem P k j v) k' j' =
  if (k' =? k) && (j' =? j) then v else entry P k' j'.
Proof.
  rewrite shape2_nth. intros [Hl H] Hk Hj. unfold entry, np.setitem.
  destruct (Nat.eqb_spec k' k) as [->|Hne]; cbn [andb].
  - rewrite (nth_upd_same P k _ []) by lia.
    destruct (Nat.eqb_spec j' j) as [->|Hnj].
    + apply nth_upd_same. rewrite H; lia.
    + now apply nth_upd_other.
  - now rewrite (nth_upd_other P k k' _ []).
Qed.

Section PositionalMatrix.

Variables (r d : nat) (n : R).

Lemma fill_pair_spec (P : mat) (k i : nat) :
  shape2 r d P -> k < r -> 2 * i + 1 < d ->
  shape2 r d (Encodings.fill_pair d n k P i) /\
  forall k' j',
    entry (Encodings.fill_pair d n k P i) k' j' =
    if (k' =? k) && ((j' =? 2 * i) || (j' =? 2 * i + 1))
    then sin_cos_entry d n k j' else entry P k' j'.
Proof.
  intros HP Hk Hi. unfold Encodings.fill_pair. split.
  - now do 2 apply shape2_setitem.
  - intros k' j'.
    rewrite (@entry_setitem r d); try lia;
      [|now apply shape2_setitem].
    rewrite (@entry_setitem r d); try lia; try assumption.
    unfold sin_cos_entry, np.power.
    destruct (Nat.eqb_spec k' k) as [->|Hne]; cbn [andb]; [|reflexivity].
    destruct (Nat.eqb_spec j' (2 * i + 1)) as [->|H1].
    + rewrite orb_true_r.
      replace (Nat.even (2 * i + 1)) with false
        by (symmetry; rewrite Nat.even_add, Nat.even_mul; reflexivity).
      replace ((2 * i + 1) / 2)%nat with i; [reflexivity|].
      apply (Nat.div_unique _ 2 i 1); lia.
    + rewrite orb_false_r.
      destruct (Nat.eqb_spec j' (2 * i)) as [->|H0]; [|reflexivity].
      replace (Nat.even (2 * i)) with true
        by (symmetry; rewrite Nat.even_mul; reflexivity).
      replace (2 * i / 2)%nat with i; [reflexivity|].
      apply (Nat.div_unique _ 2 i 0); lia.
Qed.

Lemma fill_pairs_spec (P : mat) (k m : nat) :
  shape2 r d P -> k < r -> 2 * m <= d ->
  shape2 r d (fold_left (Encodings.fill_pair d n k) (seq 0 m) P) /\
  forall k' j',
    entry (fold_left (Encodings.fill_pair d n k) (seq 0 m) P) k' j' =
    if (k' =? k) && (j' <? 2 * m)
    then sin_cos_entry d n k j' else entry P k' j'.
Proof.
  intros HP Hk. induction m as [|m IH]; intros Hm.
  - cbn [seq fold_left]. split; [assumption|]. intros k' j'.
    replace (j' <? 2 * 0) with false by (symmetry; apply Nat.ltb_ge; lia).
    now rewrite andb_false_r.
  - destruct IH as [IHs IHe]; [lia|].
    rewrite seq_S, fold_left_app. cbn [fold_left Nat.add].
    destruct (@fill_pair_spec
                (fold_left (Encodings.fill_pair d n k) (seq 0 m) P) k m)
      as [Hs He]; try assumption; try lia.
    split; [assumption|]. intros k' j'.
    rewrite He, IHe.
    destruct (Nat.eqb_spec k' k) as [->|Hne]; cbn [andb]; [|reflexivity].
    destruct (Nat.eqb_spec j' (2 * m)) as [->|H0]; cbn [orb].
    + replace (2 * m <? 2 * S m) with true
        by (symmetry; apply Nat.ltb_lt; lia). reflexivity.
    + destruct (Nat.eqb_spec j' (2 * m + 1)) as [->|H1].
      * replace (2 * m + 1 <? 2 * S m) with true
          by (symmetry; apply Nat.ltb_lt; lia). reflexivity.
      * destruct (Nat.ltb_spec j' (2 * m)), (Nat.ltb_spec j' (2 * S m));
          try reflexivity; lia.
Qed.

Lemma fill_row_spec (P : mat) (k : nat) :
  shape2 r d P -> k < r ->
  shape2 r d (Encodings.fill_row d n P k) /\
  forall k' j',
    entry (Encodings.fill_row d n P k) k' j' =
    if (k' =? k) && (j' <? 2 * (d / 2))
    then sin_cos_entry d n k j' else entry P k' j'.
Proof.
  intros HP Hk. unfold Encodings.fill_row.
  apply fill_pairs_spec; try assumption.
  apply Nat.Div0.mul_div_le.
Qed.

Lemma fill_rows_spec (P : mat) (m : nat) :
  shape2 r d P -> m <= r ->
  shape2 r d (fold_left (Encodings.fill_row d n) (seq 0 m) P) /\
  forall k' j',
    entry (fold_left (Encodings.fill_row d n) (seq 0 m) P) k' j' =
    if (k' <? m) && (j' <? 2 * (d / 2))
    then sin_cos_entry d n k' j' else entry P k' j'.
Proof.
  intros HP. induction m as [|m IH]; intros Hm.
  - cbn [seq fold_left]. split; [assumption|]. reflexivity.
  - destruct IH as [IHs IHe]; [lia|].
    rewrite seq_S, fold_left_app. cbn [fold_left Nat.add].
    destruct (@fill_row_spec
                (fold_left (Encodings.fill_row d n) (seq 0 m) P) m)
      as [Hs He]; try assumption; try lia.
    split; [assumption|]. intros k' j'.
    rewrite He, IHe.
    destruct (Nat.eqb_spec k' m) as [Heq|Hne];
      destruct (Nat.ltb_spec k' m), (Nat.ltb_spec k' (S m));
      destruct (j' <? 2 * (d / 2)); cbn [andb];
      try reflexivity; try (subst k'; reflexivity); lia.
Qed.

End PositionalMatrix.

Lemma get_sin_pos_emb_mat_n_spec (seq_len d : nat) (n : R) :
  shape2 (seq_len + 1) d (Encodings.get_sin_pos_emb_mat_n seq_len d n) /\
  forall k j,
    entry (Encodings.get_sin_pos_emb_mat_n seq_len d n) k j =
    if (k <? seq_len + 1) && (j <? 2 * (d / 2))
    then sin_cos_entry d n k j else 0%R.
Proof.
  unfold Encodings.get_sin_pos_emb_mat_n.
  destruct (@fill_rows_spec (seq_len + 1) d n
              (np.zeros2 (seq_len + 1) d) (seq_len + 1))
    as [Hs He]; [apply shape2_zeros2|lia|].
  split; [assumption|]. intros k j. rewrite He.
  now rewrite entry_zeros2.
Qed.

(** ** The error monad on lists *)

Lemma mapM_Some_map {A B : Type} (f : A -> option B) (g : A -> B) (l : list A) :
  (forall x, In x l -> f x = Some (g x)) -> mapM f l = Some (map g l).
Proof.
  induction l as [|a t IH]; intros H; cbn [mapM map]; [reflexivity|].
  rewrite (H a) by now left. cbn [bind].
  rewrite IH by (intros x Hx; apply H; now right). reflexivity.
Qed.

Lemma mapM_map {A B C : Type} (f : B -> option C) (g : A -> B) (l : list A) :
  mapM f (map g l) = mapM (fun x => f (g x)) l.
Proof.
  induction l as [|a t IH]; cbn [mapM map]; [reflexivity|].
  now rewrite IH.
Qed.

Lemma mapM_Forall2 {A B : Type} (f : A -> option B) (l : list A) (l' : list B) :
  mapM f l = Some l' -> Forall2 (fun x y => f x = Some y) l l'.
Proof.
  revert l'; induction l as [|a t IH]; intros l'; cbn [mapM].
  - intros [= <-]. constructor.
  - destruct (f a) as [b|] eqn:Hb; cbn [bind]; [|discriminate].
    destruct (mapM f t) as [bs|]; cbn [bind]; [|discriminate].
    intros [= <-]. constructor; auto.
Qed.

Lemma mapM_None {A B : Type} (f : A -> option B) (l : list A) (x : A) :
  In x l -> f x = None -> mapM f l = None.
Proof.
  induction l as [|a t IH]; intros Hin Hx; [contradiction|].
  cbn [mapM]. destruct Hin as [->|Hin].
  - now rewrite Hx.
  - destruct (f a); cbn [bind]; [|reflexivity].
    now rewrite IH.
Qed.

Lemma mapM2_Some_map2 {A B C : Type} (f : A -> B -> option C) (g : A -> B -> C)
  (l1 : list A) (l2 : list B) :
  (forall a b, In a l1 -> In b l2 -> f a b = Some (g a b)) ->
  mapM2 f l1 l2 = Some (map2 g l1 l2).
Proof.
  revert l2; induction l1 as [|a t IH]; intros [|b t2] H;
    cbn [mapM2 map2]; try reflexivity.
  rewrite (H a b) by now left. cbn [bind].
  rewrite IH by (intros; apply H; now right). reflexivity.
Qed.

Lemma length_map2 {A B C : Type} (f : A -> B -> C) (l1 : list A) (l2 : list B) :
  length (map2 f l1 l2) = Nat.min (length l1) (length l2).
Proof.
  revert l2; induction l1 as [|a t IH]; intros [|b t2]; cbn; auto.
Qed.

Lemma nth_map2 {A B C : Type} (f : A -> B -> C) (l1 : list A) (l2 : list B)
  (i : nat) (da : A) (db : B) (dc : C) :
  i < length l1 -> i < length l2 ->
  nth i (map2 f l1 l2) dc = f (nth i l1 da) (nth i l2 db).
Proof.
  revert l2 i; induction l1 as [|a t IH]; intros [|b t2] [|i] H1 H2;
    cbn in *; try lia; auto.
  apply IH; lia.
Qed.

Lemma map2_map_map {A B C D : Type} (f : B -> C -> D) (g : A -> B) (h : A -> C)
  (l : list A) :
  map2 f (map g l) (map h l) = map (fun x => f (g x) (h x)) l.
Proof.
  induction l as [|a t IH]; cbn; [reflexivity|]. now rewrite IH.
Qed.

Lemma mapM_ext_in {A B : Type} (f g : A -> option B) (l : list A) :
  (forall x, In x l -> f x = g x) -> mapM f l = mapM g l.
Proof.
  induction l as [|a t IH]; intros Hfg; cbn [mapM]; [reflexivity|].
  rewrite (Hfg a) by now left.
  now rewrite IH by (intros; apply Hfg; now right).
Qed.

Lemma mapM_nth_error_seq {A : Type} (l : list A) :
  mapM (nth_error l) (seq 0 (length l)) = Some l.
Proof.
  induction l as [|a t IH]; [reflexivity|].
  cbn [length seq mapM nth_error bind].
  rewrite <- seq_shift, mapM_map.
  rewrite (mapM_ext_in _ (nth_error t)) by reflexivity.
  now rewrite IH.
Qed.

(** ** The embedding layers *)

Lemma lookup_of_nat (e : Embedding.t) (i : nat) :
  i < Embedding.input_dim e ->
  Embedding.lookup e (Z.of_nat i) = nth_error (Embedding.embeddings e) i.
Proof.
  intros Hi. unfold Embedding.lookup. cbv zeta.
  replace (Z.of_nat i <? 0)%Z with false by (symmetry; apply Z.ltb_ge; lia).
  replace (0 <=? Z.of_nat i)%Z with true by (symmetry; apply Z.leb_le; lia).
  replace (Z.of_nat i <? Z.of_nat (Embedding.input_dim e))%Z with true
    by (symmetry; apply Z.ltb_lt; lia).
  cbn [andb]. now rewrite Nat2Z.id.
Qed.

(** Looking up every position of a table returns the table. *)
Lemma call1_range (e : Embedding.t) :
  length (Embedding.embeddings e) = Embedding.input_dim e ->
  Embedding.call1 e (tf.range (Embedding.input_dim e)) =
  Some (Embedding.embeddings e).
Proof.
  intros Hl. unfold Embedding.call1, tf.range. rewrite mapM_map.
  etransitivity; [|apply mapM_nth_error_seq].
  rewrite Hl.
  apply mapM_ext_in. intros i Hi. apply lookup_of_nat.
  apply in_seq in Hi. lia.
Qed.

(** An id in range finds its row. *)
Lemma lookup_in_range (e : Embedding.t) (id : Z) :
  length (Embedding.embeddings e) = Embedding.input_dim e ->
  (0 <= id < Z.of_nat (Embedding.input_dim e))%Z ->
  Embedding.lookup e id = Some (nth (Z.to_nat id) (Embedding.embeddings e) []).
Proof.
  intros Hl Hid. unfold Embedding.lookup. cbv zeta.
  replace (id <? 0)%Z with false by (symmetry; apply Z.ltb_ge; lia).
  replace (0 <=? id)%Z with true by (symmetry; apply Z.leb_le; lia).
  replace (id <? Z.of_nat (Embedding.input_dim e))%Z with true
    by (symmetry; apply Z.ltb_lt; lia).
  cbn [andb]. apply nth_error_nth'. lia.
Qed.

(** An id that is too large, or negative beyond the length of the table,
    is an error. *)
Lemma lookup_out_of_range (e : Embedding.t) (id : Z) :
  (id < - Z.of_nat (Embedding.input_dim e)
   \/ Z.of_nat (Embedding.input_dim e) <= id)%Z ->
  Embedding.lookup e id = None.
Proof.
  intros Hid. unfold Embedding.lookup. cbv zeta.
  destruct (Z.ltb_spec id 0);
    match goal with
    | |- context [(0 <=? ?x)%Z] => destruct (Z.leb_spec 0 x)
    end;
    match goal with
    | |- context [(?x <? Z.of_nat ?n)%Z] => destruct (Z.ltb_spec x (Z.of_nat n))
    end; cbn [andb]; try reflexivity; lia.
Qed.

Lemma call2_in_range (e : Embedding.t) (batch : list (list Z)) :
  length (Embedding.embeddings e) = Embedding.input_dim e ->
  ids_in_range (Embedding.input_dim e) batch ->
  Embedding.call2 e batch =
  Some (map (map (fun id => nth (Z.to_nat id) (Embedding.embeddings e) []))
            batch).
Proof.
  intros Hl Hr. unfold Embedding.call2, Embedding.call1.
  apply mapM_Some_map. intros ids Hids.
  apply mapM_Some_map. intros id Hid.
  apply lookup_in_range; [assumption|].
  unfold ids_in_range in Hr. rewrite Forall_forall in Hr.
  specialize (Hr ids Hids). rewrite Forall_forall in Hr. now apply Hr.
Qed.

(** ** [Encodings.call] *)

Lemma Encodings_init_wf (emb_dim seq_length vocab_size : nat) (flag : bool)
  (ty : string) (w_tok w_pos : mat) :
  shape2 (vocab_size + 2) emb_dim w_tok ->
  shape2 (seq_length + 1) emb_dim w_pos ->
  Encodings_wf
    (Encodings.__init__ emb_dim seq_length vocab_size flag ty w_tok w_pos).
Proof.
  intros Ht Hp. constructor; cbn; try reflexivity; try assumption.
  apply get_sin_pos_emb_mat_n_spec.
Qed.

Lemma pos_table_shape (self : Encodings.t) :
  Encodings_wf self ->
  shape2 (Encodings.seq_length self + 1) (Encodings.embedding_dim self)
    (pos_table self).
Proof.
  intros W. unfold pos_table.
  destruct (_ && _); [apply (wf_sin W)|apply (wf_rand W)].
Qed.

(** [call] is the token lookup, then the scaling, then the addition of the
    positional table of the configured branch. *)
Lemma Encodings_call_steps (self : Encodings.t) (batch : list (list Z)) :
  Encodings_wf self ->
  Encodings.call self batch =
  (e <- Embedding.call2 (Encodings.embedding self) batch ;;
   tf.add3_2 (tf.mul_scalar3 e (sqrt (INR (Encodings.embedding_dim self))))
             (pos_table self)).
Proof.
  intros W. unfold Encodings.call, Encodings.scaled_embedding, pos_table.
  destruct (Embedding.call2 _ batch) as [e|]; cbn [bind]; [|reflexivity].
  destruct (_ && _).
  - rewrite <- (wf_sin_dim W), call1_range; [reflexivity|].
    rewrite (wf_sin_dim W). apply (wf_sin W).
  - rewrite <- (wf_rand_dim W), call1_range; [reflexivity|].
    rewrite (wf_rand_dim W). apply (wf_rand W).
Qed.

Lemma add1_same_width (x y : vec) :
  length x = length y -> tf.add1 x y = Some (map2 Rplus x y).
Proof.
  intros H. unfold tf.add1, tf.broadcast.
  rewrite (proj2 (Nat.eqb_eq _ _) H).
  now apply mapM2_Some_map2.
Qed.

Lemma add2_same_shape (n d : nat) (x p : mat) :
  shape2 n d x -> shape2 n d p -> tf.add2 x p = Some (map2 (map2 Rplus) x p).
Proof.
  intros [Hx Fx] [Hp Fp]. unfold tf.add2, tf.broadcast.
  replace (length x =? length p) with true
    by (symmetry; apply Nat.eqb_eq; congruence).
  apply mapM2_Some_map2. intros a b Ha Hb.
  apply add1_same_width.
  rewrite Forall_forall in Fx, Fp. rewrite (Fx a Ha), (Fp b Hb). reflexivity.
Qed.

(** Rows that are neither as many as the table's nor a single one cannot be
    broadcast against it. *)
Lemma add2_mismatch (x p : mat) :
  length x <> length p -> length x <> 1 -> length p <> 1 ->
  tf.add2 x p = None.
Proof.
  intros Hne Hx Hp. unfold tf.add2, tf.broadcast.
  replace (length x =? length p) with false
    by (symmetry; now apply Nat.eqb_neq).
  destruct x as [|a [|a' x]]; cbn in Hx; try lia;
    destruct p as [|b [|b' p]]; cbn in Hp; try lia; reflexivity.
Qed.

Lemma shape2_map_map {A B : Type} (f : A -> B) (n d : nat) (m : list (list A)) :
  shape2 n d m -> shape2 n d (map (map f) m).
Proof.
  intros [Hl F]. split; [now rewrite length_map|].
  apply Forall_map. eapply Forall_impl; [|exact F].
  intros row Hr. cbn. now rewrite length_map.
Qed.

Lemma shape2_map2 (n d : nat) (x p : mat) :
  shape2 n d x -> shape2 n d p -> shape2 n d (map2 (map2 Rplus) x p).
Proof.
  rewrite !shape2_nth. intros [Hx Fx] [Hp Fp]. split.
  - rewrite length_map2. lia.
  - intros k Hk.
    rewrite (nth_map2 _ _ _ _ [] [] []) by lia.
    rewrite length_map2, Fx, Fp by assumption. lia.
Qed.

Lemma token_rows_shape (self : Encodings.t) (b n : nat) (batch : list (list Z)) :
  Encodings_wf self ->
  shape2 b n batch ->
  ids_in_range (Encodings.vocab_size self + 2) batch ->
  shape3 b n (Encodings.embedding_dim self) (token_rows self batch).
Proof.
  intros W [Hb Fb] Hr. unfold ids_in_range in Hr.
  unfold token_rows. split; [now rewrite length_map|].
  apply Forall_map. rewrite Forall_forall in *. intros ids Hids. split.
  - rewrite length_map. now apply Fb.
  - apply Forall_map. apply Forall_forall. intros id Hid.
    specialize (Hr ids Hids). rewrite Forall_forall in Hr.
    specialize (Hr id Hid).
    destruct (wf_tok W) as [Hl F]. rewrite Forall_forall in F.
    apply F, nth_In. lia.
Qed.

Lemma nth_map_lt {A B : Type} (f : A -> B) (l : list A) (i : nat) (d : B) (d' : A) :
  i < length l -> nth i (map f l) d = f (nth i l d').
Proof.
  intros Hi. rewrite (nth_indep _ d (f d')) by now rewrite length_map.
  apply map_nth.
Qed.

Lemma add3_2_same_shape (b n d : nat) (x : tensor3) (p : mat) :
  shape3 b n d x -> shape2 n d p ->
  tf.add3_2 x p = Some (map (fun m => map2 (map2 Rplus) m p) x).
Proof.
  intros [Hb Fx] Hp. unfold tf.add3_2. apply mapM_Some_map.
  intros m Hm. rewrite Forall_forall in Fx.
  apply (@add2_same_shape n d); [now apply Fx|assumption].
Qed.

Lemma mul_scalar3_shape (b n d : nat) (x : tensor3) (s : R) :
  shape3 b n d x -> shape3 b n d (tf.mul_scalar3 x s).
Proof.
  intros [Hb Fx]. unfold tf.mul_scalar3. split; [now rewrite length_map|].
  apply Forall_map. eapply Forall_impl; [|exact Fx].
  intros m Hm. now apply shape2_map_map.
Qed.

(** On a batch with one id per row of the positional table, [call]
    succeeds and is given in closed form. *)
Lemma Encodings_call_closed (self : Encodings.t) (b : nat) (batch : list (list Z)) :
  Encodings_wf self ->
  shape2 b (Encodings.seq_length self + 1) batch ->
  ids_in_range (Encodings.vocab_size self + 2) batch ->
  Encodings.call self batch =
  Some (map (fun m => map2 (map2 Rplus) m (pos_table self))
            (tf.mul_scalar3 (token_rows self batch)
               (sqrt (INR (Encodings.embedding_dim self))))).
Proof.
  intros W Hs Hr. rewrite Encodings_call_steps by assumption.
  rewrite call2_in_range;
    [|rewrite (wf_tok_dim W); apply (wf_tok W)|now rewrite (wf_tok_dim W)].
  cbn [bind]. fold (token_rows self batch).
  eapply add3_2_same_shape.
  - apply mul_scalar3_shape. eapply token_rows_shape; eassumption.
  - now apply pos_table_shape.
Qed.

Lemma Encodings_call_shape3 (self : Encodings.t) (b : nat) (batch : list (list Z)) :
  Encodings_wf self ->
  shape2 b (Encodings.seq_length self + 1) batch ->
  ids_in_range (Encodings.vocab_size self + 2) batch ->
  exists out,
    Encodings.call self batch = Some out /\
    shape3 b (Encodings.seq_length self + 1) (Encodings.embedding_dim self) out.
Proof.
  intros W Hs Hr. eexists. split; [now apply (@Encodings_call_closed self b)|].
  pose proof (@token_rows_shape self b _ batch W Hs Hr) as Ht.
  apply (@mul_scalar3_shape _ _ _ _
           (sqrt (INR (Encodings.embedding_dim self)))) in Ht.
  destruct Ht as [Hb Ft]. split; [now rewrite length_map|].
  apply Forall_map. eapply Forall_impl; [|exact Ft].
  intros m Hm. apply shape2_map2; [assumption|now apply pos_table_shape].
Qed.

(** A batch with [seq_length] ids per row, for [seq_length >= 2], cannot be
    added to the [seq_length + 1] positional rows. *)
Lemma Encodings_call_short_rows (self : Encodings.t) (b : nat)
  (batch : list (list Z)) :
  Encodings_wf self ->
  2 <= Encodings.seq_length self -> 0 < b ->
  shape2 b (Encodings.seq_length self) batch ->
  Encodings.call self batch = None.
Proof.
  intros W HL Hb [Hlen Frows].
  rewrite Encodings_call_steps by assumption.
  destruct (Embedding.call2 _ batch) as [e|] eqn:He; cbn [bind]; [|reflexivity].
  destruct batch as [|ids rest]; [cbn in Hlen; lia|].
  unfold Embedding.call2 in He. cbn [mapM] in He.
  destruct (Embedding.call1 _ ids) as [m|] eqn:Hm; cbn [bind] in He;
    [|discriminate].
  destruct (mapM _ rest) as [ms|]; cbn [bind] in He; [|discriminate].
  injection He as <-.
  unfold tf.mul_scalar3, tf.add3_2. cbn [map mapM].
  rewrite add2_mismatch; [reflexivity| | |].
  - apply mapM_Forall2, Forall2_length in Hm.
    rewrite length_map, <- Hm.
    destruct (@pos_table_shape self W) as [-> _].
    inversion Frows; subst. lia.
  - apply mapM_Forall2, Forall2_length in Hm.
    rewrite length_map, <- Hm. inversion Frows; subst. lia.
  - destruct (@pos_table_shape self W) as [-> _]. lia.
Qed.

(** C1, as amended.  For every batch with [seq_length + 1] ids per row, all
    in range, [Encodings.call] returns a tensor of shape
    [(batch, seq_length + 1, emb_dim)] whose entry at [(i, k, j)] is the
    looked-up token entry scaled by [sqrt emb_dim] plus entry [(k, j)] of
    the positional table: row [k] of the table is added at position [k] of
    every sequence of the batch. *)
Theorem Encodings_call_full_rows (self : Encodings.t) (b : nat)
  (batch : list (list Z)) :
  Encodings_wf self ->
  shape2 b (Encodings.seq_length self + 1) batch ->
  ids_in_range (Encodings.vocab_size self + 2) batch ->
  exists out,
    Encodings.call self batch = Some out /\
    shape3 b (Encodings.seq_length self + 1) (Encodings.embedding_dim self) out /\
    forall i k j,
      i < b -> k < Encodings.seq_length self + 1 ->
      j < Encodings.embedding_dim self ->
      entry3 out i k j =
      (entry3 (token_rows self batch) i k j
       * sqrt (INR (Encodings.embedding_dim self))
       + entry (pos_table self) k j)%R.
Proof.
  intros W Hs Hr.
  destruct (@Encodings_call_shape3 self b batch W Hs Hr) as (out & Hc & Hsh).
  exists out. split; [assumption|]. split; [assumption|].
  intros i k j Hi Hk Hj.
  rewrite (@Encodings_call_closed self b) in Hc by assumption.
  injection Hc as <-.
  pose proof (@token_rows_shape self b _ batch W Hs Hr) as [Hb Ft].
  pose proof (@pos_table_shape self W) as HP.
  rewrite Forall_forall in Ft.
  assert (Hm : shape2 (Encodings.seq_length self + 1)
                 (Encodings.embedding_dim self)
                 (nth i (token_rows self batch) [])).
  { apply Ft, nth_In. lia. }
  apply shape2_nth in Hm. destruct Hm as [Hml Hmr].
  apply shape2_nth in HP. destruct HP as [HPl HPr].
  unfold entry3, entry, tf.mul_scalar3.
  rewrite (nth_map_lt _ _ _ [] []) by (rewrite length_map; lia).
  rewrite (nth_map_lt _ _ _ [] []) by lia.
  rewrite (nth_map2 _ _ _ _ [] [] []) by (rewrite ?length_map; lia).
  rewrite (nth_map_lt _ _ _ [] []) by lia.
  rewrite (nth_map2 _ _ _ _ 0%R 0%R 0%R)
    by (rewrite ?length_map, ?Hmr, ?HPr; lia).
  rewrite (nth_map_lt _ _ _ 0%R 0%R) by (rewrite Hmr; lia).
  reflexivity.
Qed.

Lemma enc_len2_wf : Encodings_wf enc_len2.
Proof.
  apply Encodings_init_wf; literal_shape.
Qed.

Lemma enc_nopos_wf : Encodings_wf enc_nopos.
Proof.
  apply Encodings_init_wf; literal_shape.
Qed.

(** An instance of C1 as amended: the encoder for [seq_length = 2] on one
    sequence of three ids. *)
Lemma Encodings_call_full_rows_witness :
  exists out,
    Encodings.call enc_len2 [[0; 1; 0]]%Z = Some out /\
    shape3 1 3 1 out /\
    forall i k j,
      i < 1 -> k < 3 -> j < 1 ->
      entry3 out i k j =
      (entry3 (token_rows enc_len2 [[0; 1; 0]]%Z) i k j * sqrt (INR 1)
       + entry (pos_table enc_len2) k j)%R.
Proof.
  apply (@Encodings_call_full_rows enc_len2 1 [[0; 1; 0]]%Z).
  - apply Encodings_init_wf; literal_shape.
  - literal_shape.
  - literal_ids.
Defined.

(** C1, as stated, fails: the encoder for [seq_length = 2] is applied to
    one sequence of two ids in range, a batch of shape [(1, 2)]; the three
    positional rows cannot be broadcast against its two positions and the
    call does not return. *)
Lemma Encodings_call_seq_length_rows_fails :
  Encodings.seq_length enc_len2 = 2 /\
  shape2 1 2 [[0; 0]]%Z /\
  ids_in_range (Encodings.vocab_size enc_len2 + 2) [[0; 0]]%Z /\
  Encodings.call enc_len2 [[0; 0]]%Z = None.
Proof.
  split; [reflexivity|]. split; [split; [reflexivity|repeat constructor]|].
  split; [repeat constructor; cbn; lia|].
  apply (@Encodings_call_short_rows enc_len2 1).
  - exact enc_len2_wf.
  - cbn. lia.
  - lia.
  - literal_shape.
Qed.

(** With the flag off, the addend is the trainable positional table. *)
Lemma pos_table_flag_false (self : Encodings.t) :
  Encodings.pos_embedding_flag self = false ->
  pos_table self = Embedding.embeddings (Encodings.random_pos_embedding self).
Proof.
  intros H. unfold pos_table. now rewrite H.
Qed.

(** C2.  The code at [pos_embedding = False]: the output is the scaled
    token embedding plus the row of the trainable positional table, not the
    scaled token embedding alone. *)
Theorem Encodings_call_flag_false :
  Encodings.pos_embedding_flag enc_nopos = false /\
  Encodings.scaled_embedding enc_nopos [[0]]%Z
    = Some [[[1 * sqrt (INR 1)]]]%R /\
  Encodings.call enc_nopos [[0]]%Z = Some [[[1 * sqrt (INR 1) + 1]]]%R /\
  Encodings.call enc_nopos [[0]]%Z <> Encodings.scaled_embedding enc_nopos [[0]]%Z.
Proof.
  assert (Hs : Encodings.scaled_embedding enc_nopos [[0]]%Z
               = Some [[[1 * sqrt (INR 1)]]]%R) by reflexivity.
  assert (Hc : Encodings.call enc_nopos [[0]]%Z
               = Some [[[1 * sqrt (INR 1) + 1]]]%R) by reflexivity.
  repeat split; try assumption.
  rewrite Hs, Hc. intros [= H]. lra.
Qed.

Lemma entry3_mul_scalar3 (x : tensor3) (s : R) (i k j : nat) :
  entry3 (tf.mul_scalar3 x s) i k j = (entry3 x i k j * s)%R.
Proof.
  unfold entry3, entry, tf.mul_scalar3.
  change (@nil (list R)) with (map (map (fun a => a * s)%R) []) at 1.
  rewrite map_nth.
  change (@nil R) with (map (fun a => a * s)%R []) at 1.
  rewrite map_nth.
  rewrite <- (Rmult_0_l s) at 1.
  apply (map_nth (fun a => a * s)%R).
Qed.

(** C6.  For every batch whose ids are in range, and in both branches, the
    looked-up token rows are multiplied by [sqrt emb_dim] entry by entry,
    and the positional table is added to the scaled rows. *)
Theorem Encodings_call_scales_before_adding (self : Encodings.t)
  (batch : list (list Z)) :
  Encodings_wf self ->
  ids_in_range (Encodings.vocab_size self + 2) batch ->
  Embedding.call2 (Encodings.embedding self) batch
    = Some (token_rows self batch) /\
  Encodings.call self batch =
    tf.add3_2
      (tf.mul_scalar3 (token_rows self batch)
         (sqrt (INR (Encodings.embedding_dim self))))
      (pos_table self) /\
  forall i k j,
    entry3 (tf.mul_scalar3 (token_rows self batch)
              (sqrt (INR (Encodings.embedding_dim self)))) i k j =
    (entry3 (token_rows self batch) i k j
     * sqrt (INR (Encodings.embedding_dim self)))%R.
Proof.
  intros W Hr.
  assert (He : Embedding.call2 (Encodings.embedding self) batch
               = Some (token_rows self batch)).
  { apply call2_in_range.
    - rewrite (wf_tok_dim W). apply (wf_tok W).
    - now rewrite (wf_tok_dim W). }
  split; [assumption|]. split.
  - rewrite Encodings_call_steps by assumption. now rewrite He.
  - intros i k j. apply entry3_mul_scalar3.
Qed.

(** An instance of C6: the encoder without positional flag on the batch
    [[[0]]]. *)
Lemma Encodings_call_scales_before_adding_witness :
  Embedding.call2 (Encodings.embedding enc_nopos) [[0]]%Z
    = Some (token_rows enc_nopos [[0]]%Z) /\
  Encodings.call enc_nopos [[0]]%Z =
    tf.add3_2
      (tf.mul_scalar3 (token_rows enc_nopos [[0]]%Z)
         (sqrt (INR (Encodings.embedding_dim enc_nopos))))
      (pos_table enc_nopos) /\
  forall i k j,
    entry3 (tf.mul_scalar3 (token_rows enc_nopos [[0]]%Z)
              (sqrt (INR (Encodings.embedding_dim enc_nopos)))) i k j =
    (entry3 (token_rows enc_nopos [[0]]%Z) i k j
     * sqrt (INR (Encodings.embedding_dim enc_nopos)))%R.
Proof.
  apply (@Encodings_call_scales_before_adding enc_nopos [[0]]%Z).
  - apply Encodings_init_wf; literal_shape.
  - literal_ids.
Defined.

(** ** Reshaping *)

Lemma length_concat_rows {A : Type} (w : nat) (l : list (list A)) :
  Forall (fun row => length row = w) l -> length (concat l) = length l * w.
Proof.
  induction 1 as [|a t Ha _ IH]; [reflexivity|].
  cbn [concat length]. rewrite length_app, IH, Ha. lia.
Qed.

Lemma rows_of_concat_at {A : Type} (w : nat) (l : list (list A)) (n : nat) :
  Forall (fun row => length row = w) l -> n <= length l ->
  map (fun i => firstn w (skipn (i * w) (concat l))) (seq 0 n) = firstn n l.
Proof.
  intros F. revert n. induction F as [|a t Ha _ IH]; intros n Hn.
  - cbn in Hn. assert (n = 0) as -> by lia. reflexivity.
  - destruct n as [|n]; [reflexivity|].
    cbn [seq map firstn concat]. f_equal.
    + cbn [Nat.mul skipn]. rewrite firstn_app, Ha, Nat.sub_diag.
      cbn [firstn]. rewrite app_nil_r, <- Ha. apply firstn_all.
    + rewrite <- seq_shift, map_map. rewrite <- IH by (cbn in Hn; lia).
      apply map_ext. intros i.
      replace (S i * w) with (length a + i * w) by (rewrite Ha; lia).
      now rewrite skipn_app, skipn_all2, Nat.add_comm, Nat.add_sub by lia.
Qed.

(** Cutting a concatenation of rows of width [w] back into rows. *)
Lemma rows_of_concat {A : Type} (w : nat) (l : list (list A)) :
  0 < w -> Forall (fun row => length row = w) l ->
  tf.rows_of w (concat l) = l.
Proof.
  intros Hw F. unfold tf.rows_of.
  rewrite (length_concat_rows _ _ F), Nat.div_mul by lia.
  rewrite (rows_of_concat_at _ _ _ F) by lia. apply firstn_all.
Qed.

Lemma reshape_infer_concat {A : Type} (w : nat) (l : list (list A)) :
  0 < w -> Forall (fun row => length row = w) l ->
  tf.reshape_infer w (concat l) = Some l.
Proof.
  intros Hw F. unfold tf.reshape_infer.
  replace (w =? 0) with false by (symmetry; apply Nat.eqb_neq; lia).
  rewrite (length_concat_rows _ _ F), Nat.Div0.mod_mul. cbn [Nat.eqb].
  now rewrite rows_of_concat.
Qed.

Lemma concat_concat {A : Type} (t : list (list (list A))) :
  concat (concat t) = concat (map (@concat A) t).
Proof.
  induction t as [|a t IH]; [reflexivity|].
  cbn [concat map]. now rewrite concat_app, IH.
Qed.

Lemma rows_of_heads (H hs : nat) (row : vec) :
  0 < hs -> length row = H * hs ->
  tf.rows_of hs row = map (fun h => AttentionSpec.head_slice hs h row) (seq 0 H).
Proof.
  intros Hhs Hl. unfold tf.rows_of, AttentionSpec.head_slice.
  now rewrite Hl, Nat.div_mul by lia.
Qed.

Lemma length_head_slice (H hs h : nat) (row : vec) :
  length row = H * hs -> h < H ->
  length (AttentionSpec.head_slice hs h row) = hs.
Proof.
  intros Hl Hh. unfold AttentionSpec.head_slice.
  rewrite length_firstn, length_skipn, Hl. nia.
Qed.

(** ** Dense layers *)

Lemma Dense_call1_length (d : Dense.t) (x : vec) :
  length (Dense.call1 d x) = Dense.units d.
Proof.
  unfold Dense.call1. now rewrite length_map, length_seq.
Qed.

Lemma Dense_call2_shape (d : Dense.t) (m : mat) :
  shape2 (length m) (Dense.units d) (Dense.call2 d m).
Proof.
  unfold Dense.call2. split; [apply length_map|].
  apply Forall_map, Forall_forall. intros x _. apply Dense_call1_length.
Qed.

Lemma Dense_call1_affine (d : Dense.t) (x : vec) :
  Dense.call1 d x =
  AttentionSpec.affine (Dense.units d) (Dense.kernel d) (Dense.bias d) x.
Proof. reflexivity. Qed.

(** ** Softmax *)

Lemma sum_map_exp_pos (v : vec) : v <> [] -> (0 < sum (map exp v))%R.
Proof.
  destruct v as [|a t]; [congruence|]. intros _.
  assert (H : forall l, (0 <= sum (map exp l))%R).
  { unfold sum. induction l as [|b l IH]; cbn [map fold_right]; [lra|].
    pose proof (exp_pos b). lra. }
  pose proof (exp_pos a). pose proof (H t).
  unfold sum in *. cbn [map fold_right]. lra.
Qed.

Lemma sum_map_div (f : R -> R) (c : R) (v : vec) :
  sum (map (fun x => f x / c)%R v) = (sum (map f v) / c)%R.
Proof.
  unfold sum. induction v as [|a t IH]; cbn [map fold_right]; [lra|].
  rewrite IH. lra.
Qed.

Lemma softmax_nonneg (v : vec) : Forall (fun p => (0 <= p)%R) (tf.softmax v).
Proof.
  destruct v as [|a t]; [constructor|].
  assert (HS : (0 < sum (map exp (a :: t)))%R)
    by (apply sum_map_exp_pos; discriminate).
  unfold tf.softmax. apply Forall_map, Forall_forall. intros x _.
  apply Rlt_le, Rdiv_lt_0_compat; [apply exp_pos|assumption].
Qed.

Lemma softmax_sum (v : vec) : v <> [] -> sum (tf.softmax v) = 1%R.
Proof.
  intros Hv. pose proof (sum_map_exp_pos v Hv) as HS.
  unfold tf.softmax. rewrite (sum_map_div exp). field. lra.
Qed.

Lemma softmax_length (v : vec) : length (tf.softmax v) = length v.
Proof. apply length_map. Qed.

(** The framework's softmax is the softmax of the specification. *)
Lemma spec_softmax_eq (v : vec) : AttentionSpec.softmax v = tf.softmax v.
Proof.
  unfold AttentionSpec.softmax, tf.softmax, sum. cbv zeta. apply map_map.
Qed.

Lemma spec_probs_eq (hs : nat) (Q K : mat) :
  AttentionSpec.probs hs Q K
  = map tf.softmax (AttentionSpec.scaled_scores hs Q K).
Proof.
  unfold AttentionSpec.probs. apply map_ext. apply spec_softmax_eq.
Qed.

(** ** Products with a matrix *)

Lemma map2_ext_in {A B C : Type} (f g : A -> B -> C) (l1 : list A) (l2 : list B) :
  (forall a b, In a l1 -> In b l2 -> f a b = g a b) ->
  map2 f l1 l2 = map2 g l1 l2.
Proof.
  revert l2; induction l1 as [|a t IH]; intros [|b t2] H; cbn; try reflexivity.
  rewrite (H a b) by now left.
  now rewrite IH by (intros; apply H; now right).
Qed.

Lemma map_map2 {A B C D : Type} (f : C -> D) (g : A -> B -> C)
  (l1 : list A) (l2 : list B) :
  map f (map2 g l1 l2) = map2 (fun a b => f (g a b)) l1 l2.
Proof.
  revert l2; induction l1 as [|a t IH]; intros [|b t2]; cbn; try reflexivity.
  now rewrite IH.
Qed.

Lemma map2_plus_seq (f g : nat -> R) (w : nat) :
  map2 Rplus (map f (seq 0 w)) (map g (seq 0 w)) =
  map (fun t => f t + g t)%R (seq 0 w).
Proof. apply map2_map_map. Qed.

Lemma map_nth_seq (v : vec) (f : R -> R) :
  map f v = map (fun t => f (nth t v 0%R)) (seq 0 (length v)).
Proof.
  apply (nth_ext _ _ (f 0%R) (f 0%R)).
  - now rewrite !length_map, length_seq.
  - intros i Hi. rewrite length_map in Hi.
    rewrite map_nth.
    rewrite (nth_map_lt _ _ _ _ 0) by now rewrite length_seq.
    now rewrite seq_nth.
Qed.

(** A row vector times a matrix is the sum of the matrix rows weighted by
    the entries of the vector. *)
Lemma vecmat_weighted_sum (w : nat) (p : vec) (V : mat) :
  Forall (fun v => length v = w) V ->
  vecmat w p V = AttentionSpec.weighted_sum w p V.
Proof.
  intros F. revert p. induction F as [|v V Hv _ IH]; intros p.
  - unfold vecmat, AttentionSpec.weighted_sum, np.zeros.
    replace (map2 _ p []) with (@nil (list R)) by now destruct p.
    cbn [fold_right].
    apply (nth_ext _ _ 0%R 0%R).
    + now rewrite length_map, length_seq, repeat_length.
    + intros i Hi. rewrite length_map, length_seq in Hi.
      rewrite (nth_map_lt _ _ _ _ 0) by now rewrite length_seq.
      rewrite nth_repeat_lt by assumption.
      unfold dot, col. now destruct p.
  - destruct p as [|a p].
    + unfold vecmat, AttentionSpec.weighted_sum, np.zeros. cbn [map2 fold_right].
      apply (nth_ext _ _ 0%R 0%R).
      * now rewrite length_map, length_seq, repeat_length.
      * intros i Hi. rewrite length_map, length_seq in Hi.
        rewrite (nth_map_lt _ _ _ _ 0) by now rewrite length_seq.
        now rewrite nth_repeat_lt.
    + unfold AttentionSpec.weighted_sum in *. cbn [map2 fold_right].
      rewrite <- IH. unfold vecmat.
      rewrite (map_nth_seq v), Hv, map2_plus_seq.
      apply map_ext. intros t. reflexivity.
Qed.

(** ** [Attention.__init__] and [Attention.split_heads] *)

Lemma Attention_init_wf (num_heads emb_dim : nat) (w : Attention.weights)
  (self : Attention.t) :
  Attention.__init__ num_heads emb_dim w = Some self ->
  Attention_wf self /\
  Attention.num_att_heads self = num_heads /\
  Attention.emb_dim self = emb_dim.
Proof.
  unfold Attention.__init__, Dense.__init__.
  destruct (Nat.eqb_spec num_heads 0) as [|Hn]; [discriminate|].
  destruct (num_heads * (emb_dim / num_heads) =? 0); [discriminate|].
  cbn [bind]. destruct (emb_dim =? 0); [discriminate|]. cbn [bind].
  intros [= <-]. split; [|split; reflexivity].
  constructor; cbn; try reflexivity. lia.
Qed.

(** A constructed layer has a positive head size. *)
Lemma Attention_init_head_size_pos (num_heads emb_dim : nat)
  (w : Attention.weights) (self : Attention.t) :
  Attention.__init__ num_heads emb_dim w = Some self ->
  0 < Attention.attention_head_size self /\ num_heads <= emb_dim.
Proof.
  unfold Attention.__init__, Dense.__init__.
  destruct (Nat.eqb_spec num_heads 0) as [|Hn]; [discriminate|].
  destruct (Nat.eqb_spec (num_heads * (emb_dim / num_heads)) 0) as [|Ha];
    [discriminate|].
  cbn [bind]. destruct (emb_dim =? 0); [discriminate|]. cbn [bind].
  intros [= <-]. cbn [Attention.attention_head_size].
  pose proof (Nat.div_mod_eq emb_dim num_heads) as E.
  destruct (emb_dim / num_heads) as [|q].
  - rewrite Nat.mul_0_r in Ha. congruence.
  - split; [lia|]. rewrite E. rewrite Nat.mul_succ_r. lia.
Qed.

(** The constructor succeeds exactly for [0 < num_heads <= emb_dim]. *)
Lemma Attention_init_Some (num_heads emb_dim : nat) (w : Attention.weights) :
  0 < num_heads -> num_heads <= emb_dim ->
  exists self, Attention.__init__ num_heads emb_dim w = Some self.
Proof.
  intros Hn Hle. unfold Attention.__init__, Dense.__init__.
  destruct (Nat.eqb_spec num_heads 0) as [|_]; [lia|].
  assert (Hq : 0 < emb_dim / num_heads) by (apply Nat.div_str_pos; lia).
  destruct (Nat.eqb_spec (num_heads * (emb_dim / num_heads)) 0) as [E|_];
    [nia|].
  cbn [bind]. destruct (Nat.eqb_spec emb_dim 0) as [|_]; [lia|].
  cbn [bind]. eauto.
Qed.

Lemma Attention_init_None (num_heads emb_dim : nat) (w : Attention.weights) :
  num_heads = 0 \/ emb_dim < num_heads ->
  Attention.__init__ num_heads emb_dim w = None.
Proof.
  intros H. unfold Attention.__init__, Dense.__init__.
  destruct (Nat.eqb_spec num_heads 0) as [|Hn]; [reflexivity|].
  destruct H as [|Hlt]; [contradiction|].
  rewrite (Nat.div_small emb_dim num_heads Hlt), Nat.mul_0_r. reflexivity.
Qed.

Lemma heads_shape (H hs : nat) (M : mat) :
  Forall (fun row => length row = H * hs) M ->
  shape3 H (length M) hs (AttentionSpec.heads H hs M).
Proof.
  intros F. unfold AttentionSpec.heads. split.
  - now rewrite length_map, length_seq.
  - apply Forall_map, Forall_forall. intros h Hh. apply in_seq in Hh.
    split; [apply length_map|].
    apply Forall_map. eapply Forall_impl; [|exact F].
    intros row Hrow. apply (@length_head_slice H); [assumption|lia].
Qed.

(** Reshaping rows of width [H * hs] to [(-1, H, hs)] and exchanging the two
    leading axes gives every head its slice of every row. *)
Lemma split_rows_heads (H hs : nat) (M : mat) :
  0 < hs ->
  Forall (fun row => length row = H * hs) M ->
  tf.transpose01 H (map (tf.rows_of hs) M) = AttentionSpec.heads H hs M.
Proof.
  intros Hhs F. unfold tf.transpose01, AttentionSpec.heads.
  apply map_ext_in. intros h Hh. apply in_seq in Hh.
  rewrite map_map. apply map_ext_in. intros row Hrow.
  rewrite Forall_forall in F.
  rewrite (@rows_of_heads H) by auto.
  rewrite (nth_map_lt _ _ _ _ 0) by (rewrite length_seq; lia).
  now rewrite seq_nth by lia.
Qed.

Lemma split_heads1_dense (self : Attention.t) (d : Dense.t) (m : mat) :
  Attention_wf self ->
  0 < Attention.attention_head_size self ->
  Dense.units d = Attention.all_head_size self ->
  Attention.split_heads1 self (Dense.call2 d m) =
  Some (AttentionSpec.heads (Attention.num_att_heads self)
          (Attention.attention_head_size self) (Dense.call2 d m)).
Proof.
  intros W Hhs Hu. unfold Attention.split_heads1.
  destruct (Dense_call2_shape d m) as [_ F].
  rewrite Hu, (wf_all W) in F.
  rewrite reshape_infer_concat; [|pose proof (wf_heads W); nia|assumption].
  cbn [bind]. now rewrite split_rows_heads.
Qed.

Lemma split_heads_dense (self : Attention.t) (d : Dense.t) (x : tensor3) (b : nat) :
  Attention_wf self ->
  0 < Attention.attention_head_size self ->
  Dense.units d = Attention.all_head_size self ->
  Attention.split_heads self (Dense.call3 d x) b =
  Some (map (fun m => AttentionSpec.heads (Attention.num_att_heads self)
                        (Attention.attention_head_size self) (Dense.call2 d m))
            x).
Proof.
  intros W Hhs Hu. unfold Attention.split_heads, Dense.call3.
  rewrite mapM_map. apply mapM_Some_map. intros m _.
  now apply split_heads1_dense.
Qed.

(** With a head size of zero nothing can be split. *)
Lemma split_heads_zero (self : Attention.t) (x : tensor3) (b : nat) :
  Attention.num_att_heads self * Attention.attention_head_size self = 0 ->
  x <> [] ->
  Attention.split_heads self x b = None.
Proof.
  intros H0 Hx. destruct x as [|m x]; [congruence|].
  unfold Attention.split_heads. cbn [mapM].
  unfold Attention.split_heads1, tf.reshape_infer. now rewrite H0.
Qed.

(** ** [Attention.call] in closed form *)

Lemma probs_of_scores (s : R) (Qs Ks : tensor3) :
  map (map tf.softmax)
      (map (map (map (fun a => a / s)%R)) (map2 tf.matmul_nt Qs Ks)) =
  map2 (fun Q K => map tf.softmax
                     (map (map (fun a => a / s)%R) (tf.matmul_nt Q K)))
       Qs Ks.
Proof.
  rewrite map_map.
  apply (map_map2
           (fun x => map tf.softmax (map (map (fun a => a / s)%R) x))).
Qed.

Lemma attention_probs1_shape (self : Attention.t) (X : mat) :
  Attention_wf self ->
  shape3 (Attention.num_att_heads self) (length X) (length X)
    (AttentionSpec.attention_probs1 self X).
Proof.
  intros W. unfold AttentionSpec.attention_probs1, AttentionSpec.heads.
  rewrite map2_map_map. split; [now rewrite length_map, length_seq|].
  apply Forall_map, Forall_forall. intros h _.
  unfold AttentionSpec.probs, AttentionSpec.scaled_scores,
    AttentionSpec.raw_scores.
  rewrite !map_map. split.
  - unfold Dense.call2. now rewrite !length_map.
  - apply Forall_map, Forall_forall. intros q _.
    unfold Dense.call2.
    now rewrite spec_softmax_eq, softmax_length, !length_map.
Qed.

Lemma Forall_map2 {A B C : Type} (f : A -> B -> C)
  (P : A -> Prop) (Q : B -> Prop) (R : C -> Prop) (l1 : list A) (l2 : list B) :
  Forall P l1 -> Forall Q l2 ->
  (forall a b, P a -> Q b -> R (f a b)) ->
  Forall R (map2 f l1 l2).
Proof.
  intros F1. revert l2. induction F1 as [|a t Ha _ IH]; intros l2 F2 H.
  - constructor.
  - destruct F2 as [|b t2 Hb F2]; cbn [map2]; constructor; auto.
Qed.

Lemma contexts1_shape (self : Attention.t) (X : mat) :
  Attention_wf self ->
  shape3 (Attention.num_att_heads self) (length X)
    (Attention.attention_head_size self)
    (AttentionSpec.contexts1 self X).
Proof.
  intros W. pose proof (attention_probs1_shape self X W) as [HP FP].
  pose proof (Dense_call2_shape (Attention.value self) X) as [HV FV].
  rewrite (wf_value W), (wf_all W) in FV.
  pose proof (heads_shape _ _ _ FV) as [HH FH].
  unfold AttentionSpec.contexts1. split.
  - rewrite length_map2. lia.
  - eapply Forall_map2; [exact FP|exact FH|].
    intros P V [HPl HPr] [HVl HVr]. split; [now rewrite length_map|].
    apply Forall_map, Forall_forall. intros row _.
    rewrite <- (vecmat_weighted_sum _ _ _ HVr).
    unfold vecmat. now rewrite length_map, length_seq.
Qed.

Lemma contexts1_hd_length (self : Attention.t) (X : mat) :
  Attention_wf self ->
  length (hd [] (AttentionSpec.contexts1 self X)) = length X.
Proof.
  intros W. destruct (contexts1_shape self X W) as [HC FC].
  pose proof (wf_heads W).
  destruct (AttentionSpec.contexts1 self X) as [|c cs]; [cbn in HC; lia|].
  inversion FC as [|? ? [Hc _] _]; subst. exact Hc.
Qed.

Lemma matmul_contexts1 (self : Attention.t) (X : mat) :
  Attention_wf self ->
  map2 (tf.matmul (Attention.attention_head_size self))
       (AttentionSpec.attention_probs1 self X)
       (AttentionSpec.heads (Attention.num_att_heads self)
          (Attention.attention_head_size self)
          (Dense.call2 (Attention.value self) X)) =
  AttentionSpec.contexts1 self X.
Proof.
  intros W. unfold AttentionSpec.contexts1.
  pose proof (Dense_call2_shape (Attention.value self) X) as [_ FV].
  rewrite (wf_value W), (wf_all W) in FV.
  pose proof (heads_shape _ _ _ FV) as [_ FH].
  rewrite Forall_forall in FH.
  apply map2_ext_in. intros P V _ HV.
  unfold tf.matmul. apply map_ext. intros p.
  apply vecmat_weighted_sum. now apply FH.
Qed.

(** The layer up to the last reshape: the probabilities are those of the
    specification, and the context is what the head-wise weighted sums
    give, with the head axis moved behind the position axis. *)
Lemma Attention_call_closed (self : Attention.t) (hidden_states : tensor3) :
  Attention_wf self ->
  0 < Attention.attention_head_size self ->
  Attention.call self hidden_states =
  (ctx <- mapM (fun c => tf.reshape_infer (Attention.emb_dim self)
                           (concat (concat c)))
            (map (fun X => tf.transpose01 (length X)
                             (AttentionSpec.contexts1 self X))
                 hidden_states) ;;
   Some (Dense.call3 (Attention.out self) ctx,
         map (AttentionSpec.attention_probs1 self) hidden_states)).
Proof.
  intros W Hhs. unfold Attention.call.
  rewrite !split_heads_dense
    by (try assumption; first [apply (wf_query W)|apply (wf_key W)
                              |apply (wf_value W)]).
  cbn [bind].
  match goal with
  | |- context [tf.softmax4 ?x] =>
      assert (HP : tf.softmax4 x =
                   map (AttentionSpec.attention_probs1 self) hidden_states)
  end.
  { unfold tf.softmax4, tf.div_scalar4.
    rewrite map2_map_map, !map_map. apply map_ext. intros X.
    rewrite probs_of_scores. unfold AttentionSpec.attention_probs1.
    apply map2_ext_in. intros Q K _ _. now rewrite spec_probs_eq. }
  rewrite HP.
  match goal with
  | |- context [mapM _ ?x] =>
      assert (HC : x = map (fun X => tf.transpose01 (length X)
                                       (AttentionSpec.contexts1 self X))
                           hidden_states)
  end.
  { rewrite map2_map_map, map_map. apply map_ext. intros X.
    rewrite matmul_contexts1 by assumption.
    now rewrite contexts1_hd_length. }
  rewrite HC. reflexivity.
Qed.

Lemma recombined1_shape (self : Attention.t) (X : mat) :
  Attention_wf self ->
  shape2 (length X)
    (Attention.num_att_heads self * Attention.attention_head_size self)
    (AttentionSpec.recombined1 self X).
Proof.
  intros W. destruct (contexts1_shape self X W) as [HC FC].
  unfold AttentionSpec.recombined1. split.
  - now rewrite length_map, length_seq.
  - apply Forall_map, Forall_forall. intros i Hi. apply in_seq in Hi.
    rewrite (length_concat_rows (Attention.attention_head_size self)).
    + now rewrite length_map, HC.
    + apply Forall_map. eapply Forall_impl; [|exact FC].
      intros C HCs. apply shape2_nth in HCs. destruct HCs as [_ Hrow].
      apply Hrow. lia.
Qed.

(** The last reshape recombines the heads when the embedding width is the
    width of all heads together. *)
Lemma reshape_recombines (self : Attention.t) (X : mat) :
  Attention_wf self ->
  0 < Attention.attention_head_size self ->
  Attention.emb_dim self =
    Attention.num_att_heads self * Attention.attention_head_size self ->
  tf.reshape_infer (Attention.emb_dim self)
    (concat (concat (tf.transpose01 (length X) (AttentionSpec.contexts1 self X))))
  = Some (AttentionSpec.recombined1 self X).
Proof.
  intros W Hhs HD. rewrite concat_concat.
  unfold tf.transpose01. rewrite map_map.
  change (map _ (seq 0 (length X))) with (AttentionSpec.recombined1 self X).
  destruct (recombined1_shape self X W) as [_ F].
  apply reshape_infer_concat.
  - rewrite HD. pose proof (wf_heads W). nia.
  - now rewrite HD.
Qed.

(** The code computes what the specification describes. *)
Lemma Attention_call_attend (self : Attention.t) (hidden_states : tensor3) :
  Attention_wf self ->
  0 < Attention.attention_head_size self ->
  Attention.emb_dim self =
    Attention.num_att_heads self * Attention.attention_head_size self ->
  Attention.call self hidden_states =
  Some (AttentionSpec.attend self hidden_states).
Proof.
  intros W Hhs HD. rewrite Attention_call_closed by assumption.
  rewrite mapM_map.
  rewrite (mapM_Some_map _ (AttentionSpec.recombined1 self))
    by (intros X _; now apply reshape_recombines).
  cbn [bind]. unfold AttentionSpec.attend. do 2 f_equal.
  unfold Dense.call3. rewrite map_map. apply map_ext. intros X.
  unfold Dense.call2, AttentionSpec.output1. apply map_ext. intros x.
  now rewrite Dense_call1_affine, (wf_out W).
Qed.

Lemma attend_shapes (self : Attention.t) (b n : nat) (hidden_states : tensor3) :
  Attention_wf self ->
  length hidden_states = b ->
  Forall (fun X => length X = n) hidden_states ->
  shape3 b n (Attention.emb_dim self)
    (fst (AttentionSpec.attend self hidden_states)) /\
  shape4 b (Attention.num_att_heads self) n n
    (snd (AttentionSpec.attend self hidden_states)).
Proof.
  intros W Hb Fn. unfold AttentionSpec.attend. cbn [fst snd]. split.
  - split; [now rewrite length_map|].
    apply Forall_map. eapply Forall_impl; [|exact Fn].
    intros X HX. unfold AttentionSpec.output1. split.
    + rewrite length_map. destruct (recombined1_shape self X W) as [-> _].
      exact HX.
    + apply Forall_map, Forall_forall. intros x _.
      unfold AttentionSpec.affine. now rewrite length_map, length_seq.
  - split; [now rewrite length_map|].
    apply Forall_map. eapply Forall_impl; [|exact Fn].
    intros X HX. rewrite <- HX. now apply attention_probs1_shape.
Qed.

(** ** The claims on the attention layer *)

(** C8, as stated, fails: with three heads on embeddings of width 2, which
    3 does not divide, the head size is 0 and the construction of the
    dense layers raises. *)
Lemma Attention_init_more_heads_than_width_fails :
  2 mod 3 <> 0 /\ Attention.__init__ 3 2 w_id2 = None.
Proof.
  split; [cbn; lia|reflexivity].
Qed.

(** C8, as amended.  When [emb_dim], below [2^53], is not a multiple of the
    number of heads and there are fewer heads than [emb_dim],
    [Attention.__init__] returns a layer all the same: its head size is
    the quotient of the integer division, the remainder is dropped, and
    the width of all heads together is [num_heads] times the head size,
    which is less than [emb_dim]. *)
Theorem Attention_init_truncates (num_heads emb_dim : nat) (w : Attention.weights) :
  0 < num_heads -> num_heads < emb_dim ->
  (Z.of_nat emb_dim < 2 ^ 53)%Z ->
  emb_dim mod num_heads <> 0 ->
  exists self,
    Attention.__init__ num_heads emb_dim w = Some self /\
    Attention.num_att_heads self = num_heads /\
    Attention.emb_dim self = emb_dim /\
    Attention.attention_head_size self = emb_dim / num_heads /\
    Attention.all_head_size self = num_heads * (emb_dim / num_heads) /\
    Attention.all_head_size self + emb_dim mod num_heads = emb_dim /\
    Attention.all_head_size self < emb_dim.
Proof.
  intros Hn Hlt _ Hmod.
  destruct (Attention_init_Some num_heads emb_dim w Hn) as (self & Hs); [lia|].
  exists self. split; [exact Hs|].
  apply Attention_init_wf in Hs. destruct Hs as (W & HH & HD).
  rewrite (wf_all W), (wf_head_size W), HH, HD.
  pose proof (Nat.div_mod_eq emb_dim num_heads).
  repeat split; lia.
Qed.

(** An instance of C8 as amended: two heads on embeddings of width 5 get a
    head size of 2 and a total width of 4. *)
Lemma Attention_init_truncates_witness :
  exists self,
    Attention.__init__ 2 5 w_id2 = Some self /\
    Attention.num_att_heads self = 2 /\
    Attention.emb_dim self = 5 /\
    Attention.attention_head_size self = 5 / 2 /\
    Attention.all_head_size self = 2 * (5 / 2) /\
    Attention.all_head_size self + 5 mod 2 = 5 /\
    Attention.all_head_size self < 5.
Proof.
  apply (@Attention_init_truncates 2 5 w_id2).
  - lia.
  - lia.
  - reflexivity.
  - cbn. lia.
Defined.

Lemma divisible_head_size (self : Attention.t) :
  Attention_wf self ->
  Attention.emb_dim self mod Attention.num_att_heads self = 0 ->
  0 < Attention.emb_dim self ->
  0 < Attention.attention_head_size self /\
  Attention.emb_dim self =
    Attention.num_att_heads self * Attention.attention_head_size self.
Proof.
  intros W Hmod HD. pose proof (wf_heads W) as HH.
  rewrite (wf_head_size W).
  pose proof (Nat.div_mod_eq (Attention.emb_dim self)
                (Attention.num_att_heads self)) as E.
  rewrite Hmod in E. split; [|lia].
  destruct (Attention.emb_dim self / Attention.num_att_heads self); lia.
Qed.

Lemma softmax_row_normalised (v : vec) :
  v <> [] ->
  Forall (fun p => (0 <= p)%R) (tf.softmax v) /\ sum (tf.softmax v) = 1%R.
Proof.
  intros Hv. split; [apply softmax_nonneg|now apply softmax_sum].
Qed.

Lemma attention_probs1_rows (self : Attention.t) (X : mat) (ph : mat) (row : vec) :
  In ph (AttentionSpec.attention_probs1 self X) -> In row ph ->
  Forall (fun p => (0 <= p)%R) row /\ sum row = 1%R.
Proof.
  unfold AttentionSpec.attention_probs1, AttentionSpec.heads.
  rewrite map2_map_map. intros Hph Hrow.
  apply in_map_iff in Hph. destruct Hph as (h & <- & _).
  unfold AttentionSpec.probs, AttentionSpec.scaled_scores,
    AttentionSpec.raw_scores in Hrow.
  rewrite !map_map in Hrow.
  apply in_map_iff in Hrow. destruct Hrow as (q & <- & Hq).
  rewrite spec_softmax_eq. apply softmax_row_normalised.
  unfold Dense.call2 in *. destruct X as [|x X]; [contradiction|].
  discriminate.
Qed.

(** C3.  For a layer made by [Attention.__init__], built for hidden states
    of width [d], and every input of shape [(b, n, d)]: whenever the call
    returns, its attention probabilities have shape [(b, num_heads, n, n)],
    and for every batch element, every head and every query position the
    row has one entry per key position, its entries are non-negative and
    they sum to 1.  On a non-empty batch of non-empty sequences the call
    does return when [num_heads] divides [emb_dim]. *)
Theorem attention_probs_rows_normalised (num_heads emb_dim : nat)
  (w : Attention.weights) (self : Attention.t) (b n d : nat)
  (hidden_states : tensor3) :
  Attention.__init__ num_heads emb_dim w = Some self ->
  Attention_fits self d ->
  shape3 b n d hidden_states ->
  (0 < b -> 0 < n -> emb_dim mod num_heads = 0 ->
   exists r, Attention.call self hidden_states = Some r) /\
  forall att_output attention_probs,
    Attention.call self hidden_states = Some (att_output, attention_probs) ->
    shape4 b num_heads n n attention_probs /\
    forall bi h i,
      bi < b -> h < num_heads -> i < n ->
      let row := nth i (nth h (nth bi attention_probs []) []) [] in
      length row = n /\ Forall (fun p => (0 <= p)%R) row /\ sum row = 1%R.
Proof.
  intros Hinit _ [Hb Fh].
  destruct (Attention_init_head_size_pos _ _ _ _ Hinit) as [Hhs Hle].
  apply Attention_init_wf in Hinit. destruct Hinit as (W & HH & HD).
  pose proof (wf_heads W) as Hheads.
  assert (Fn : Forall (fun X : mat => length X = n) hidden_states).
  { eapply Forall_impl; [|exact Fh]. now intros X [HX _]. }
  split.
  - intros _ _ Hmod. rewrite <- HH, <- HD in Hmod.
    assert (Hpos : 0 < Attention.emb_dim self) by lia.
    destruct (divisible_head_size self W Hmod Hpos) as [_ HDA].
    eexists. now apply Attention_call_attend.
  - intros att_output attention_probs Hcall.
    rewrite Attention_call_closed in Hcall by assumption.
    destruct (mapM _ _) as [ctx|]; cbn [bind] in Hcall; [|discriminate].
    injection Hcall as _ <-.
    assert (Hsh : shape4 b num_heads n n
                    (map (AttentionSpec.attention_probs1 self) hidden_states)).
    { split; [now rewrite length_map|].
      apply Forall_map. eapply Forall_impl; [|exact Fn].
      intros X HX. rewrite <- HX, <- HH. now apply attention_probs1_shape. }
    split; [exact Hsh|].
    intros bi h i Hbi Hh Hi row. unfold row.
    rewrite (nth_map_lt _ _ _ [] []) by lia.
    set (X := nth bi hidden_states []).
    assert (HX : length X = n).
    { rewrite Forall_forall in Fn. apply Fn, nth_In. lia. }
    destruct (attention_probs1_shape self X W) as [HP FP].
    rewrite HX, HH in *.
    assert (Hph : In (nth h (AttentionSpec.attention_probs1 self X) [])
                     (AttentionSpec.attention_probs1 self X))
      by (apply nth_In; lia).
    rewrite Forall_forall in FP. destruct (FP _ Hph) as [Hl Frow].
    assert (Hrow : In (nth i (nth h (AttentionSpec.attention_probs1 self X) [])
                         [])
                      (nth h (AttentionSpec.attention_probs1 self X) []))
      by (apply nth_In; lia).
    rewrite Forall_forall in Frow. split; [now apply Frow|].
    now apply (attention_probs1_rows self X _ _ Hph).
Qed.

Lemma att_2heads_init : Attention.__init__ 2 2 w_id2 = Some att_2heads.
Proof. reflexivity. Qed.

Lemma att_2heads_fits : Attention_fits att_2heads 2.
Proof.
  repeat split; repeat constructor.
Qed.

(** An instance of C3: the layer [att_2heads] on one sequence of two
    positions returns, and the row of its second head at the second
    position is a probability vector over the two positions. *)
Lemma attention_probs_rows_normalised_witness :
  exists att_output attention_probs,
    Attention.call att_2heads hidden_1x2x2 = Some (att_output, attention_probs) /\
    shape4 1 2 2 2 attention_probs /\
    let row := nth 1 (nth 1 (nth 0 attention_probs []) []) [] in
    length row = 2 /\ Forall (fun p => (0 <= p)%R) row /\ sum row = 1%R.
Proof.
  destruct (@attention_probs_rows_normalised 2 2 w_id2 att_2heads 1 2 2
              hidden_1x2x2) as [Hret Hrows].
  - reflexivity.
  - repeat split; repeat constructor.
  - split; [reflexivity|]. repeat constructor.
  - destruct Hret as ([o p] & Hc); [lia|lia|reflexivity|].
    exists o, p. split; [exact Hc|].
    destruct (Hrows o p Hc) as [Hsh Hrow].
    split; [exact Hsh|]. apply Hrow; lia.
Defined.

(** With [num_heads] not dividing [emb_dim] the last reshape of [call] has
    nothing to recombine: [Attention(2, 3)] on one position leaves two
    context entries, which do not fill a row of width 3. *)
Lemma Attention_call_indivisible_fails (w : Attention.weights) (self : Attention.t) :
  Attention.__init__ 2 3 w = Some self ->
  Attention.call self [[[1; 0; 0]]]%R = None.
Proof.
  intros [= <-]. reflexivity.
Qed.

Lemma att_2of3_init : Attention.__init__ 2 3 w_2of3 = Some att_2of3.
Proof. reflexivity. Qed.

Lemma att_2of3_fits : Attention_fits att_2of3 3.
Proof.
  repeat split; repeat constructor.
Qed.

(** C4, as stated, fails: [Attention(2, 3)], which the constructor accepts,
    has heads of size 1; on one sequence of three positions of width 3 the
    six context entries are cut into rows of width [emb_dim = 3], not of
    width [num_heads * head_size = 2], and the output has two positions
    instead of three. *)
Lemma Attention_call_indivisible_merges_positions :
  Attention.__init__ 2 3 w_2of3 = Some att_2of3 /\
  Attention_fits att_2of3 3 /\
  shape3 1 3 3 hidden_1x3x3 /\
  Attention.num_att_heads att_2of3 * Attention.attention_head_size att_2of3 = 2 /\
  exists att_output attention_probs,
    Attention.call att_2of3 hidden_1x3x3 = Some (att_output, attention_probs) /\
    shape3 1 2 3 att_output /\
    ~ shape3 1 3 3 att_output.
Proof.
  split; [reflexivity|]. split; [exact att_2of3_fits|].
  split; [split; [reflexivity|repeat constructor]|].
  split; [reflexivity|].
  eexists. eexists. split; [reflexivity|]. split.
  - split; [reflexivity|]. repeat constructor.
  - intros [_ F]. apply Forall_inv in F. destruct F as [F _]. discriminate F.
Qed.

(** C4, as amended.  For a layer made by [Attention.__init__] with
    [num_heads] dividing a positive [emb_dim], built for inputs of width
    [emb_dim], and every input of shape [(b, L, emb_dim)], the call returns
    what the specification describes: per head the scores [q . k] divided
    by [sqrt head_size], their softmax over the key axis, the sums of the
    value vectors weighted by these probabilities, the heads side by side
    in rows of width [num_heads * head_size], and the affine output
    projection of these rows to width [emb_dim], with nothing applied after
    it.  The output has shape [(b, L, emb_dim)] and the probabilities have
    shape [(b, num_heads, L, L)]. *)
Theorem Attention_call_refines_spec (num_heads emb_dim : nat)
  (w : Attention.weights) (self : Attention.t) (b L : nat)
  (hidden_states : tensor3) :
  Attention.__init__ num_heads emb_dim w = Some self ->
  Attention_fits self emb_dim ->
  emb_dim mod num_heads = 0 -> 0 < emb_dim ->
  shape3 b L emb_dim hidden_states ->
  Attention.call self hidden_states
    = Some (AttentionSpec.attend self hidden_states) /\
  Attention.attention_head_size self = emb_dim / num_heads /\
  (forall X, In X hidden_states ->
     shape2 L (num_heads * Attention.attention_head_size self)
       (AttentionSpec.recombined1 self X)) /\
  shape3 b L emb_dim (fst (AttentionSpec.attend self hidden_states)) /\
  shape4 b num_heads L L (snd (AttentionSpec.attend self hidden_states)).
Proof.
  intros Hinit _ Hmod Hpos [Hb Fh]. apply Attention_init_wf in Hinit.
  destruct Hinit as (W & HH & HD).
  rewrite <- HH, <- HD in Hmod. rewrite <- HD in Hpos.
  destruct (divisible_head_size self W Hmod Hpos) as [Hhs HDA].
  assert (Fn : Forall (fun X : mat => length X = L) hidden_states).
  { eapply Forall_impl; [|exact Fh]. now intros X [HX _]. }
  split; [now apply Attention_call_attend|].
  split; [rewrite (wf_head_size W); congruence|].
  split.
  - intros X HX. rewrite Forall_forall in Fn. rewrite <- (Fn X HX), <- HH.
    now apply recombined1_shape.
  - rewrite <- HD, <- HH. now apply attend_shapes.
Qed.

(** An instance of C4 as amended: the layer [att_2heads] on one sequence
    of two positions. *)
Lemma Attention_call_refines_spec_witness :
  Attention.call att_2heads hidden_1x2x2
    = Some (AttentionSpec.attend att_2heads hidden_1x2x2) /\
  Attention.attention_head_size att_2heads = 2 / 2 /\
  (forall X, In X hidden_1x2x2 ->
     shape2 2 (2 * Attention.attention_head_size att_2heads)
       (AttentionSpec.recombined1 att_2heads X)) /\
  shape3 1 2 2 (fst (AttentionSpec.attend att_2heads hidden_1x2x2)) /\
  shape4 1 2 2 2 (snd (AttentionSpec.attend att_2heads hidden_1x2x2)).
Proof.
  apply (@Attention_call_refines_spec 2 2 w_id2 att_2heads 1 2 hidden_1x2x2).
  - reflexivity.
  - repeat split; repeat constructor.
  - reflexivity.
  - lia.
  - split; [reflexivity|].
    repeat constructor.
Defined.

(** ** [_Model.build] and the loop over the layers *)

Lemma build_loop_spec (num_heads emb_dim : nat) (ws : list Attention.weights)
  (idx : list nat) (acc layers : list Attention.t) :
  _Model.build_loop num_heads emb_dim ws idx acc = Some layers ->
  exists new,
    layers = acc ++ new /\ length new = length idx /\
    Forall (fun a => exists w, Attention.__init__ num_heads emb_dim w = Some a)
           new.
Proof.
  revert acc. induction idx as [|i rest IH]; intros acc; cbn [_Model.build_loop].
  - intros [= <-]. exists []. rewrite app_nil_r. repeat split. constructor.
  - destruct (Attention.__init__ _ _ _) as [a|] eqn:Ha; cbn [bind];
      [|discriminate].
    intros H. apply IH in H. destruct H as (new & -> & Hl & F).
    exists (a :: new). rewrite <- app_assoc. cbn [app length].
    repeat split; [now rewrite Hl|]. constructor; eauto.
Qed.

(** With a positive number of heads, no more than [emb_dim], [build]
    creates every layer. *)
Lemma build_loop_total (num_heads emb_dim : nat) (ws : list Attention.weights)
  (idx : list nat) (acc : list Attention.t) :
  0 < num_heads -> num_heads <= emb_dim ->
  exists layers, _Model.build_loop num_heads emb_dim ws idx acc = Some layers.
Proof.
  intros Hn Hle. revert acc. induction idx as [|i rest IH]; intros acc;
    cbn [_Model.build_loop]; [eauto|].
  destruct (Attention_init_Some num_heads emb_dim
              (nth i ws (Attention.mk_weights ([], []) ([], []) ([], []) ([], [])))
              Hn Hle) as (a & ->).
  cbn [bind]. apply IH.
Qed.


Lemma build_fields (self self' : _Model.t) (ws : list Attention.weights) :
  _Model.build self ws = Some self' ->
  _Model.built self' = true /\
  _Model.encodings self' = _Model.encodings self /\
  _Model.num_heads self' = _Model.num_heads self /\
  _Model.emb_dim self' = _Model.emb_dim self /\
  _Model.agg_method self' = _Model.agg_method self /\
  _Model.head_dim self' = _Model.head_dim self /\
  _Model.num_att_layers self' = _Model.num_att_layers self /\
  _Model.head self' = _Model.head self /\
  length (_Model.att_layers self') = _Model.num_att_layers self /\
  Forall (fun a => exists w,
            Attention.__init__ (_Model.num_heads self) (_Model.emb_dim self) w
            = Some a)
         (_Model.att_layers self').
Proof.
  unfold _Model.build.
  destruct (_Model.build_loop _ _ _ _ _) as [layers|] eqn:Hl; cbn [bind];
    [|discriminate].
  intros [= <-]. cbn. apply build_loop_spec in Hl.
  destruct Hl as (new & -> & Hlen & F). cbn [app].
  rewrite length_seq in Hlen. repeat split; assumption.
Qed.

(** ** Stacking the attention tensors *)

Lemma shape_eqb_refl (s : nat * nat * nat * nat) : tf.shape_eqb s s = true.
Proof.
  destruct s as [[[a b] c] d]. unfold tf.shape_eqb.
  now rewrite !Nat.eqb_refl.
Qed.

Lemma shape_of4_same (b h r c : nat) (t1 t2 : tensor4) :
  shape4 b h r c t1 -> shape4 b h r c t2 -> tf.shape_of4 t1 = tf.shape_of4 t2.
Proof.
  intros [H1 F1] [H2 F2]. unfold tf.shape_of4.
  destruct t1 as [|x1 t1], t2 as [|x2 t2]; cbn in H1, H2; try lia;
    [reflexivity|].
  cbn [hd length]. rewrite H1, H2.
  destruct (Forall_inv F1) as [Hx1 Fx1]. destruct (Forall_inv F2) as [Hx2 Fx2].
  destruct x1 as [|y1 x1], x2 as [|y2 x2]; cbn in Hx1, Hx2; try lia;
    [reflexivity|].
  cbn [hd length]. rewrite Hx1, Hx2.
  destruct (Forall_inv Fx1) as [Hy1 Fy1]. destruct (Forall_inv Fx2) as [Hy2 Fy2].
  destruct y1 as [|z1 y1], y2 as [|z2 y2]; cbn in Hy1, Hy2; try lia;
    [reflexivity|].
  cbn [hd length]. rewrite Hy1, Hy2.
  now rewrite (Forall_inv Fy1), (Forall_inv Fy2).
Qed.

Lemma convert_to_tensor_same_shape (b h r c : nat) (l : list tensor4) :
  Forall (shape4 b h r c) l -> tf.convert_to_tensor l = Some l.
Proof.
  intros F. unfold tf.convert_to_tensor.
  replace (forallb _ l) with true; [reflexivity|].
  symmetry. apply forallb_forall. intros t Ht.
  destruct l as [|t0 l]; [contradiction|]. cbn [hd].
  rewrite Forall_forall in F.
  rewrite (@shape_of4_same b h r c t t0 (F t Ht) (F t0 (or_introl eq_refl))).
  apply shape_eqb_refl.
Qed.

(** ** Pooling *)

Lemma gather1_first (x : tensor3) :
  Forall (fun X => 0 < length X) x ->
  tf.gather1 x 0 = Some (map first_position x).
Proof.
  intros F. unfold tf.gather1. apply mapM_Some_map. intros X HX.
  rewrite Forall_forall in F. specialize (F X HX).
  destruct X as [|v X]; [cbn in F; lia|reflexivity].
Qed.

Lemma gather1_empty_sequence (x : tensor3) :
  In [] x -> tf.gather1 x 0 = None.
Proof.
  intros H. unfold tf.gather1. now apply (mapM_None _ _ [] H).
Qed.

Lemma column_sums_sum_positions (d : nat) (X : mat) :
  Forall (fun row => length row = d) X ->
  map (fun j => sum (col j X)) (seq 0 d) = sum_positions d X.
Proof.
  induction 1 as [|v X Hv _ IH]; unfold sum_positions.
  - cbn [fold_right col map sum]. unfold np.zeros.
    apply (nth_ext _ _ 0%R 0%R).
    + now rewrite length_map, length_seq, repeat_length.
    + intros i Hi. rewrite length_map, length_seq in Hi.
      rewrite (nth_map_lt _ _ _ _ 0) by now rewrite length_seq.
      now rewrite nth_repeat_lt.
  - cbn [fold_right]. fold (sum_positions d X). rewrite <- IH.
    assert (E : v = map (fun t => nth t v 0%R) (seq 0 d)).
    { rewrite <- Hv, <- (map_nth_seq v (fun a => a)). symmetry. apply map_id. }
    transitivity
      (map2 Rplus (map (fun t => nth t v 0%R) (seq 0 d))
                  (map (fun j => sum (col j X)) (seq 0 d))).
    + rewrite map2_plus_seq. apply map_ext. intros j. reflexivity.
    + now rewrite <- E.
Qed.

Lemma reduce_sum1_sum_positions (n d : nat) (x : tensor3) :
  Forall (shape2 n d) x ->
  tf.reduce_sum1 d x = map (sum_positions d) x.
Proof.
  intros F. unfold tf.reduce_sum1. apply map_ext_in. intros X HX.
  rewrite Forall_forall in F. destruct (F X HX) as [_ FX].
  now apply column_sums_sum_positions.
Qed.

(** ** The stack of attention layers *)

Lemma Attention_call_shapes (num_heads emb_dim : nat) (w : Attention.weights)
  (self : Attention.t) (b n : nat) (hidden_states : tensor3) :
  Attention.__init__ num_heads emb_dim w = Some self ->
  emb_dim mod num_heads = 0 -> 0 < emb_dim ->
  shape3 b n emb_dim hidden_states ->
  exists att_output attention_probs,
    Attention.call self hidden_states = Some (att_output, attention_probs) /\
    shape3 b n emb_dim att_output /\
    shape4 b num_heads n n attention_probs.
Proof.
  intros Hinit Hmod Hpos [Hb Fh]. apply Attention_init_wf in Hinit.
  destruct Hinit as (W & HH & HD).
  rewrite <- HH, <- HD in Hmod. rewrite <- HD in Hpos.
  destruct (divisible_head_size self W Hmod Hpos) as [Hhs HDA].
  assert (Fn : Forall (fun X : mat => length X = n) hidden_states).
  { eapply Forall_impl; [|exact Fh]. now intros X [HX _]. }
  exists (fst (AttentionSpec.attend self hidden_states)),
         (snd (AttentionSpec.attend self hidden_states)).
  rewrite <- surjective_pairing.
  split; [now apply Attention_call_attend|].
  rewrite <- HD, <- HH. now apply attend_shapes.
Qed.

Lemma att_loop_shapes (num_heads emb_dim b n : nat) (layers : list Attention.t)
  (idx : list nat) (att_op : tensor3) (acc : list tensor4) :
  emb_dim mod num_heads = 0 -> 0 < emb_dim ->
  Forall (fun a => exists w, Attention.__init__ num_heads emb_dim w = Some a)
         layers ->
  Forall (fun i => i < length layers) idx ->
  shape3 b n emb_dim att_op ->
  exists att_op' new,
    _Model.att_loop layers idx att_op acc = Some (att_op', acc ++ new) /\
    shape3 b n emb_dim att_op' /\
    length new = length idx /\
    Forall (shape4 b num_heads n n) new.
Proof.
  intros Hmod Hpos FL Fi. revert att_op acc.
  induction Fi as [|i rest Hi _ IH]; intros att_op acc Hop;
    cbn [_Model.att_loop].
  - exists att_op, []. rewrite app_nil_r.
    split; [reflexivity|]. split; [assumption|].
    split; [reflexivity|constructor].
  - destruct (nth_error layers i) as [layer|] eqn:Hnth;
      [|apply nth_error_None in Hnth; lia].
    cbn [bind]. apply nth_error_In in Hnth.
    rewrite Forall_forall in FL. destruct (FL layer Hnth) as (w & Hw).
    destruct (@Attention_call_shapes num_heads emb_dim w layer b n att_op
                Hw Hmod Hpos Hop)
      as (o & s & -> & Ho & Hs).
    cbn [bind].
    destruct (IH o (acc ++ [s]) Ho) as (o' & new & -> & Ho' & Hl & Fn).
    exists o', (s :: new). rewrite <- app_assoc. cbn [app length].
    split; [reflexivity|]. split; [assumption|].
    split; [now rewrite Hl|now constructor].
Qed.

(** ** [_Model.call] *)

Section ModelCall.

Variables (emb_dim seq_length vocab_size : nat) (pos_embedding : bool).
Variables (num_heads head_size : nat) (agg_method embedding_type : string).
Variables (num_att_layers : nat) (w_tok w_pos : mat) (w_head : mat * vec).

(** The forward pass of a built model on a batch with [seq_length + 1] ids
    per row, up to the pooling. *)
Lemma Model_call_steps (ws : list Attention.weights) (self : _Model.t)
  (b : nat) (input : list (list Z)) :
  shape2 (vocab_size + 2) emb_dim w_tok ->
  shape2 (seq_length + 1) emb_dim w_pos ->
  emb_dim mod num_heads = 0 -> 0 < emb_dim ->
  _Model.build
    (_Model.__init__ emb_dim seq_length vocab_size pos_embedding num_heads
       head_size agg_method embedding_type num_att_layers w_tok w_pos w_head)
    ws = Some self ->
  shape2 b (seq_length + 1) input ->
  ids_in_range (vocab_size + 2) input ->
  exists op att_op scores,
    Encodings.call (_Model.encodings self) input = Some op /\
    _Model.att_loop (_Model.att_layers self) (seq 0 num_att_layers) op []
      = Some (att_op, scores) /\
    shape3 b (seq_length + 1) emb_dim att_op /\
    shape5 num_att_layers b num_heads (seq_length + 1) (seq_length + 1) scores /\
    _Model.call self input =
      (pooled <- _Model.pool self att_op ;;
       Some (Dense.call2 (_Model.head self) pooled, scores)).
Proof.
  intros Htok Hpos Hmod HD Hbuild Hin Hids.
  apply build_fields in Hbuild.
  destruct Hbuild as (_ & Henc & _ & _ & _ & _ & HN & _ & Hlen & FL).
  cbn in Henc, HN, Hlen, FL.
  pose proof (@Encodings_init_wf emb_dim seq_length vocab_size pos_embedding
                embedding_type w_tok w_pos Htok Hpos) as W.
  destruct (@Encodings_call_shape3 _ b input W Hin Hids) as (op & Hop & Hsh).
  cbn in Hsh.
  destruct (@att_loop_shapes num_heads emb_dim b (seq_length + 1)
              (_Model.att_layers self) (seq 0 num_att_layers) op []
              Hmod HD FL) as (att_op & scores & Hloop & Hatt & Hsl & Fs).
  { apply Forall_forall. intros i Hi. apply in_seq in Hi. lia. }
  { exact Hsh. }
  cbn [app] in Hloop. rewrite length_seq in Hsl.
  exists op, att_op, scores.
  rewrite Henc. split; [exact Hop|]. split; [exact Hloop|].
  split; [exact Hatt|]. split; [split; assumption|].
  unfold _Model.call. rewrite Henc, Hop. cbn [bind].
  rewrite HN, Hloop. cbn [bind].
  destruct (_Model.pool self att_op) as [pooled|]; cbn [bind]; [|reflexivity].
  now rewrite (@convert_to_tensor_same_shape _ _ _ _ _ Fs).
Qed.

End ModelCall.

(** C7, as amended.  For a built model whose number of heads divides a
    positive [emb_dim], and every input batch with [seq_length + 1] ids per
    row, all in range: the forward pass returns; the pooled vector of a
    sequence is the vector at position 0 of the last layer's output when
    [agg_method] is [TOKEN] and the elementwise sum of its position vectors
    when it is [SUM]; the head, a dense layer of [head_size] units, is
    applied to it, which gives an output of shape [(b, head_size)]; and the
    attention tensors of the layers are returned as one tensor of shape
    [(num_att_layers, b, num_heads, seq_length + 1, seq_length + 1)]. *)
Theorem Model_call_pools_and_projects
  (emb_dim seq_length vocab_size : nat) (pos_embedding : bool)
  (num_heads head_size : nat) (agg_method embedding_type : string)
  (num_att_layers : nat) (w_tok w_pos : mat) (w_head : mat * vec)
  (ws : list Attention.weights) (self : _Model.t)
  (b : nat) (input : list (list Z)) :
  shape2 (vocab_size + 2) emb_dim w_tok ->
  shape2 (seq_length + 1) emb_dim w_pos ->
  emb_dim mod num_heads = 0 -> 0 < emb_dim ->
  _Model.build
    (_Model.__init__ emb_dim seq_length vocab_size pos_embedding num_heads
       head_size agg_method embedding_type num_att_layers w_tok w_pos w_head)
    ws = Some self ->
  shape2 b (seq_length + 1) input ->
  ids_in_range (vocab_size + 2) input ->
  exists op att_op scores out,
    Encodings.call (_Model.encodings self) input = Some op /\
    _Model.att_loop (_Model.att_layers self) (seq 0 num_att_layers) op []
      = Some (att_op, scores) /\
    _Model.call self input = Some (out, scores) /\
    (agg_method = "TOKEN"%string ->
     out = Dense.call2 (Dense.mk head_size (fst w_head) (snd w_head))
             (map first_position att_op)) /\
    (agg_method = "SUM"%string ->
     out = Dense.call2 (Dense.mk head_size (fst w_head) (snd w_head))
             (map (sum_positions emb_dim) att_op)) /\
    shape2 b head_size out /\
    shape5 num_att_layers b num_heads (seq_length + 1) (seq_length + 1) scores.
Proof.
  intros Htok Hpos Hmod HD Hbuild Hin Hids.
  destruct (@Model_call_steps emb_dim seq_length vocab_size pos_embedding
              num_heads head_size agg_method embedding_type num_att_layers
              w_tok w_pos w_head ws self b input
              Htok Hpos Hmod HD Hbuild Hin Hids)
    as (op & att_op & scores & Hop & Hloop & Hatt & Hsc & Hcall).
  apply build_fields in Hbuild.
  destruct Hbuild as (_ & _ & _ & Hemb & Hagg & _ & _ & Hhead & _ & _).
  cbn in Hemb, Hagg, Hhead.
  destruct Hatt as [Hb Fatt].
  assert (Hpool : exists pooled,
             _Model.pool self att_op = Some pooled /\ length pooled = b /\
             (agg_method = "TOKEN"%string ->
              pooled = map first_position att_op) /\
             (agg_method = "SUM"%string ->
              pooled = map (sum_positions emb_dim) att_op)).
  { unfold _Model.pool. rewrite Hagg, Hemb.
    destruct (String.eqb_spec agg_method "TOKEN") as [E|E].
    - rewrite gather1_first.
      + eexists. split; [reflexivity|]. split; [now rewrite length_map|].
        split; [reflexivity|]. intros E'. rewrite E in E'. discriminate.
      + eapply Forall_impl; [|exact Fatt]. intros X [HX _]. lia.
    - eexists. split; [reflexivity|].
      rewrite (@reduce_sum1_sum_positions (seq_length + 1)) by assumption.
      split; [now rewrite length_map|].
      split; [intros E'; contradiction|reflexivity]. }
  destruct Hpool as (pooled & Hp & Hlen & Htoken & Hsum).
  rewrite Hp in Hcall. cbn [bind] in Hcall. rewrite Hhead in Hcall.
  exists op, att_op, scores,
    (Dense.call2 (Dense.mk head_size (fst w_head) (snd w_head)) pooled).
  split; [exact Hop|]. split; [exact Hloop|]. split; [exact Hcall|].
  split; [intros E; now rewrite (Htoken E)|].
  split; [intros E; now rewrite (Hsum E)|].
  split; [|exact Hsc].
  rewrite <- Hlen. apply (Dense_call2_shape (Dense.mk head_size _ _)).
Qed.

Lemma model_len1_build (agg_method : string) :
  _Model.build (model_len1 agg_method) [w_id2] = Some (model_len1_built agg_method).
Proof. reflexivity. Qed.

(** An instance of C7 as amended: the model for [seq_length = 1] with
    [TOKEN] pooling on one sequence of two ids. *)
Lemma Model_call_pools_and_projects_witness :
  exists op att_op scores out,
    Encodings.call (_Model.encodings (model_len1_built "TOKEN")) [[0; 1]]%Z
      = Some op /\
    _Model.att_loop (_Model.att_layers (model_len1_built "TOKEN")) (seq 0 1) op []
      = Some (att_op, scores) /\
    _Model.call (model_len1_built "TOKEN") [[0; 1]]%Z = Some (out, scores) /\
    ("TOKEN"%string = "TOKEN"%string ->
     out = Dense.call2 (Dense.mk 1 [[1]; [1]]%R [0]%R)
             (map first_position att_op)) /\
    ("TOKEN"%string = "SUM"%string ->
     out = Dense.call2 (Dense.mk 1 [[1]; [1]]%R [0]%R)
             (map (sum_positions 2) att_op)) /\
    shape2 1 1 out /\
    shape5 1 1 2 (1 + 1) (1 + 1) scores.
Proof.
  apply (@Model_call_pools_and_projects 2 1 0 true 2 1 "TOKEN" "SIN_COS" 1
           [[1; 0]; [0; 1]]%R [[0; 0]; [0; 0]]%R ([[1]; [1]]%R, [0]%R)
           [w_id2] (model_len1_built "TOKEN") 1 [[0; 1]]%Z).
  - literal_shape.
  - literal_shape.
  - reflexivity.
  - lia.
  - reflexivity.
  - literal_shape.
  - literal_ids.
Defined.

(** C7, as stated, fails: a model for [seq_length = 2] is built and applied
    to one sequence of two ids in range; the encoder cannot add its three
    positional rows to two positions and the forward pass returns
    nothing. *)
Lemma Model_call_seq_length_rows_fails :
  Encodings.seq_length (_Model.encodings model_len2) = 2 /\
  shape2 1 2 [[0; 0]]%Z /\
  ids_in_range (0 + 2) [[0; 0]]%Z /\
  exists self,
    _Model.build model_len2 [w_id1] = Some self /\
    _Model.call self [[0; 0]]%Z = None.
Proof.
  split; [reflexivity|]. split; [split; [reflexivity|repeat constructor]|].
  split; [repeat constructor; cbn; lia|].
  eexists. split; [reflexivity|].
  unfold _Model.call. cbn [_Model.encodings].
  change (_Model.encodings model_len2) with enc_len2.
  rewrite (@Encodings_call_short_rows enc_len2 1); [reflexivity| | | |].
  - exact enc_len2_wf.
  - cbn. lia.
  - lia.
  - literal_shape.
Qed.

(** ** Forward calls on one layer object *)

Lemma call_built (self : _Model.t) (ws : list Attention.weights)
  (input : list (list Z)) :
  _Model.built self = true ->
  _Model.__call__ self ws input = (self, _Model.call self input).
Proof.
  intros H. unfold _Model.__call__. now rewrite H.
Qed.

Lemma call_keeps_encodings (self : _Model.t) (ws : list Attention.weights)
  (input : list (list Z)) :
  _Model.encodings (fst (_Model.__call__ self ws input)) = _Model.encodings self.
Proof.
  unfold _Model.__call__. destruct (_Model.built self); [reflexivity|].
  destruct (_Model.build self ws) as [self'|] eqn:Hb; [|reflexivity].
  apply build_fields in Hb. cbn [fst]. tauto.
Qed.

Lemma calls_keep_encodings (self : _Model.t) (ws : list Attention.weights)
  (inputs : list (list (list Z))) :
  _Model.encodings (_Model.calls self ws inputs) = _Model.encodings self.
Proof.
  revert self. induction inputs as [|x rest IH]; intros self;
    cbn [_Model.calls]; [reflexivity|].
  rewrite IH. apply call_keeps_encodings.
Qed.



(** C5.  The positional matrix [__init__] computes has [seq_length + 1] rows
    of width [emb_dim]; its entry [(k, 2i)] is [sin (k / 10000^(2i/d))] and
    its entry [(k, 2i+1)] is [cos (k / 10000^(2i/d))] for every [k] up to
    [seq_length] and every [i] below [d / 2]; the table of the fixed
    positional embedding holds it; and after any sequence of forward calls
    the layer object still holds this matrix. *)
Theorem sin_pos_matrix_entries
  (emb_dim seq_length vocab_size : nat) (pos_embedding : bool)
  (num_heads head_size : nat) (agg_method embedding_type : string)
  (num_att_layers : nat) (w_tok w_pos : mat) (w_head : mat * vec)
  (ws : list Attention.weights) (inputs : list (list (list Z))) (k i : nat) :
  k <= seq_length -> i < emb_dim / 2 ->
  let self :=
    _Model.calls
      (_Model.__init__ emb_dim seq_length vocab_size pos_embedding num_heads
         head_size agg_method embedding_type num_att_layers w_tok w_pos w_head)
      ws inputs in
  let P := Encodings.sin_pos_embedding_mat (_Model.encodings self) in
  P = Encodings.get_sin_pos_emb_mat seq_length emb_dim /\
  Embedding.embeddings
    (Encodings.sinusodial_pos_embedding (_Model.encodings self)) = P /\
  shape2 (seq_length + 1) emb_dim P /\
  entry P k (2 * i) = sin (INR k / Rpower 10000 (2 * INR i / INR emb_dim)) /\
  entry P k (2 * i + 1) = cos (INR k / Rpower 10000 (2 * INR i / INR emb_dim)).
Proof.
  intros Hk Hi self P. unfold P, self. rewrite calls_keep_encodings.
  unfold _Model.__init__, Encodings.__init__.
  cbn [_Model.encodings Encodings.sin_pos_embedding_mat
       Encodings.sinusodial_pos_embedding Embedding.embeddings].
  unfold Encodings.get_sin_pos_emb_mat.
  destruct (get_sin_pos_emb_mat_n_spec seq_length emb_dim 10000) as [Hs He].
  split; [reflexivity|]. split; [reflexivity|]. split; [exact Hs|].
  assert (Hd : 2 * (emb_dim / 2) <= emb_dim) by apply Nat.Div0.mul_div_le.
  rewrite !He.
  replace (k <? seq_length + 1) with true by (symmetry; apply Nat.ltb_lt; lia).
  replace (2 * i <? 2 * (emb_dim / 2)) with true
    by (symmetry; apply Nat.ltb_lt; lia).
  replace (2 * i + 1 <? 2 * (emb_dim / 2)) with true
    by (symmetry; apply Nat.ltb_lt; lia).
  cbn [andb]. unfold sin_cos_entry.
  replace (Nat.even (2 * i)) with true
    by (symmetry; rewrite Nat.even_mul; reflexivity).
  replace (Nat.even (2 * i + 1)) with false
    by (symmetry; rewrite Nat.even_add, Nat.even_mul; reflexivity).
  replace (2 * i / 2) with i by (apply (Nat.div_unique _ 2 i 0); lia).
  replace ((2 * i + 1) / 2) with i by (apply (Nat.div_unique _ 2 i 1); lia).
  rewrite mult_INR. cbn [INR]. replace (1 + 1)%R with 2%R by lra.
  split; reflexivity.
Qed.

(** An instance of C5: row 1 of the matrix for [seq_length = 1] and
    [emb_dim = 2], after two forward calls. *)
Lemma sin_pos_matrix_entries_witness :
  let self := _Model.calls (model_len1 "TOKEN") [w_id2] [[[0; 1]]; [[1; 0]]]%Z in
  let P := Encodings.sin_pos_embedding_mat (_Model.encodings self) in
  P = Encodings.get_sin_pos_emb_mat 1 2 /\
  Embedding.embeddings
    (Encodings.sinusodial_pos_embedding (_Model.encodings self)) = P /\
  shape2 (1 + 1) 2 P /\
  entry P 1 (2 * 0) = sin (INR 1 / Rpower 10000 (2 * INR 0 / INR 2)) /\
  entry P 1 (2 * 0 + 1) = cos (INR 1 / Rpower 10000 (2 * INR 0 / INR 2)).
Proof.
  apply (@sin_pos_matrix_entries 2 1 0 true 2 1 "TOKEN" "SIN_COS" 1
           [[1; 0]; [0; 1]]%R [[0; 0]; [0; 0]]%R ([[1]; [1]]%R, [0]%R)
           [w_id2] [[[0; 1]]; [[1; 0]]]%Z 1 0).
  - lia.
  - cbn. lia.
Defined.

(** * Further properties of the code *)

(** ** [Encodings.get_sin_pos_emb_mat] *)

Lemma sin_pos_entries (seq_len d : nat) (n : R) (k i : nat) :
  k <= seq_len -> i < d / 2 ->
  entry (Encodings.get_sin_pos_emb_mat_n seq_len d n) k (2 * i)
    = sin (INR k / Rpower n (2 * INR i / INR d)) /\
  entry (Encodings.get_sin_pos_emb_mat_n seq_len d n) k (2 * i + 1)
    = cos (INR k / Rpower n (2 * INR i / INR d)).
Proof.
  intros Hk Hi.
  destruct (get_sin_pos_emb_mat_n_spec seq_len d n) as [_ He].
  assert (Hd : 2 * (d / 2) <= d) by apply Nat.Div0.mul_div_le.
  rewrite !He.
  replace (k <? seq_len + 1) with true by (symmetry; apply Nat.ltb_lt; lia).
  replace (2 * i <? 2 * (d / 2)) with true by (symmetry; apply Nat.ltb_lt; lia).
  replace (2 * i + 1 <? 2 * (d / 2)) with true
    by (symmetry; apply Nat.ltb_lt; lia).
  cbn [andb]. unfold sin_cos_entry.
  replace (Nat.even (2 * i)) with true
    by (symmetry; rewrite Nat.even_mul; reflexivity).
  replace (Nat.even (2 * i + 1)) with false
    by (symmetry; rewrite Nat.even_add, Nat.even_mul; reflexivity).
  replace (2 * i / 2) with i by (apply (Nat.div_unique _ 2 i 0); lia).
  replace ((2 * i + 1) / 2) with i by (apply (Nat.div_unique _ 2 i 1); lia).
  rewrite mult_INR. cbn [INR]. replace (1 + 1)%R with 2%R by lra.
  split; reflexivity.
Qed.

Lemma sin_cos_entry_bound (d : nat) (n : R) (k j : nat) :
  (-1 <= sin_cos_entry d n k j <= 1)%R.
Proof.
  unfold sin_cos_entry. destruct (Nat.even j); [apply SIN_bound|apply COS_bound].
Qed.

(** X1.  For an odd width [d] the loops of [get_sin_pos_emb_mat] never write
    the last column: it keeps the zeros of [np.zeros] in every row. *)
Theorem sin_pos_matrix_odd_width_last_column (seq_len d k : nat) :
  Nat.odd d = true ->
  entry (Encodings.get_sin_pos_emb_mat seq_len d) k (d - 1) = 0%R.
Proof.
  intros Hodd. apply Nat.odd_spec in Hodd. destruct Hodd as (m & ->).
  unfold Encodings.get_sin_pos_emb_mat.
  destruct (get_sin_pos_emb_mat_n_spec seq_len (2 * m + 1) 10000) as [_ He].
  rewrite He.
  replace ((2 * m + 1) / 2) with m by (apply (Nat.div_unique _ 2 m 1); lia).
  replace (2 * m + 1 - 1 <? 2 * m) with false
    by (symmetry; apply Nat.ltb_ge; lia).
  now rewrite andb_false_r.
Qed.

(** An instance of X1: width 3, position 1. *)
Lemma sin_pos_matrix_odd_width_last_column_witness :
  entry (Encodings.get_sin_pos_emb_mat 1 3) 1 (3 - 1) = 0%R.
Proof.
  apply (@sin_pos_matrix_odd_width_last_column 1 3 1). reflexivity.
Defined.

(** X2.  Row 0 of the positional matrix alternates 0 and 1 over its paired
    columns, whatever the width. *)
Theorem sin_pos_matrix_row_zero (seq_len d i : nat) :
  i < d / 2 ->
  entry (Encodings.get_sin_pos_emb_mat seq_len d) 0 (2 * i) = 0%R /\
  entry (Encodings.get_sin_pos_emb_mat seq_len d) 0 (2 * i + 1) = 1%R.
Proof.
  intros Hi. unfold Encodings.get_sin_pos_emb_mat.
  destruct (@sin_pos_entries seq_len d 10000 0 i) as [Hs Hc]; [lia|assumption|].
  rewrite Hs, Hc. cbn [INR]. rewrite Rdiv_0_l. split; [apply sin_0|apply cos_0].
Qed.

(** An instance of X2: width 4, second pair of columns. *)
Lemma sin_pos_matrix_row_zero_witness :
  entry (Encodings.get_sin_pos_emb_mat 2 4) 0 (2 * 1) = 0%R /\
  entry (Encodings.get_sin_pos_emb_mat 2 4) 0 (2 * 1 + 1) = 1%R.
Proof.
  apply (@sin_pos_matrix_row_zero 2 4 1). cbn. lia.
Defined.

(** X3.  The first pair of columns does not depend on the width: position
    [k] holds [sin k] and [cos k] there. *)
Theorem sin_pos_matrix_first_pair (seq_len d k : nat) :
  k <= seq_len -> 2 <= d ->
  entry (Encodings.get_sin_pos_emb_mat seq_len d) k 0 = sin (INR k) /\
  entry (Encodings.get_sin_pos_emb_mat seq_len d) k 1 = cos (INR k).
Proof.
  intros Hk Hd. unfold Encodings.get_sin_pos_emb_mat.
  assert (Hi : 0 < d / 2).
  { pose proof (Nat.div_mod_eq d 2). pose proof (Nat.mod_upper_bound d 2).
    destruct (d / 2); lia. }
  destruct (@sin_pos_entries seq_len d 10000 k 0 Hk Hi) as [Hs Hc].
  cbn [Nat.mul Nat.add] in Hs, Hc. rewrite Hs, Hc. cbn [INR].
  replace (2 * 0 / INR d)%R with 0%R by (unfold Rdiv; ring).
  rewrite Rpower_O by lra. now rewrite Rdiv_1_r.
Qed.

(** An instance of X3: position 2 of a matrix of width 4. *)
Lemma sin_pos_matrix_first_pair_witness :
  entry (Encodings.get_sin_pos_emb_mat 2 4) 2 0 = sin (INR 2) /\
  entry (Encodings.get_sin_pos_emb_mat 2 4) 2 1 = cos (INR 2).
Proof.
  apply (@sin_pos_matrix_first_pair 2 4 2); lia.
Defined.

(** X4.  Every entry of the positional matrix lies between -1 and 1. *)
Theorem sin_pos_matrix_bounded (seq_len d k j : nat) :
  (-1 <= entry (Encodings.get_sin_pos_emb_mat seq_len d) k j <= 1)%R.
Proof.
  unfold Encodings.get_sin_pos_emb_mat.
  destruct (get_sin_pos_emb_mat_n_spec seq_len d 10000) as [_ He].
  rewrite He. destruct (_ && _); [apply sin_cos_entry_bound|lra].
Qed.

(** X5.  The two entries of a pair of columns are a point of the unit
    circle: their squares sum to 1. *)
Theorem sin_pos_matrix_pair_unit (seq_len d k i : nat) :
  k <= seq_len -> i < d / 2 ->
  (Rsqr (entry (Encodings.get_sin_pos_emb_mat seq_len d) k (2 * i))
   + Rsqr (entry (Encodings.get_sin_pos_emb_mat seq_len d) k (2 * i + 1)))%R
  = 1%R.
Proof.
  intros Hk Hi. unfold Encodings.get_sin_pos_emb_mat.
  destruct (@sin_pos_entries seq_len d 10000 k i Hk Hi) as [-> ->].
  apply sin2_cos2.
Qed.

(** An instance of X5. *)
Lemma sin_pos_matrix_pair_unit_witness :
  (Rsqr (entry (Encodings.get_sin_pos_emb_mat 2 4) 1 (2 * 1))
   + Rsqr (entry (Encodings.get_sin_pos_emb_mat 2 4) 1 (2 * 1 + 1)))%R
  = 1%R.
Proof.
  apply (@sin_pos_matrix_pair_unit 2 4 1 1); [lia|cbn; lia].
Defined.

Lemma mat_ext (r c : nat) (A B : mat) :
  shape2 r c A -> shape2 r c B ->
  (forall k j, k < r -> j < c -> entry A k j = entry B k j) ->
  A = B.
Proof.
  rewrite !shape2_nth. intros [HA FA] [HB FB] H.
  apply (nth_ext _ _ [] []); [congruence|].
  intros k Hk. rewrite HA in Hk.
  apply (nth_ext _ _ 0%R 0%R); [now rewrite FA, FB|].
  intros j Hj. rewrite FA in Hj by assumption. now apply H.
Qed.

(** X6.  The rows of the positional matrix do not depend on the sequence
    length: the matrix for a shorter sequence is the leading part of the
    matrix for a longer one. *)
Theorem sin_pos_matrix_prefix (seq_len seq_len' d : nat) :
  seq_len <= seq_len' ->
  firstn (seq_len + 1) (Encodings.get_sin_pos_emb_mat seq_len' d)
  = Encodings.get_sin_pos_emb_mat seq_len d.
Proof.
  intros Hle. unfold Encodings.get_sin_pos_emb_mat.
  destruct (get_sin_pos_emb_mat_n_spec seq_len d 10000) as [Hs He].
  destruct (get_sin_pos_emb_mat_n_spec seq_len' d 10000) as [Hs' He'].
  apply (@mat_ext (seq_len + 1) d); [|exact Hs|].
  - destruct Hs' as [Hl' F']. split.
    + rewrite length_firstn. lia.
    + apply Forall_forall. intros row Hrow.
      rewrite Forall_forall in F'. apply F'.
      rewrite <- (firstn_skipn (seq_len + 1)). apply in_or_app. now left.
  - intros k j Hk Hj. unfold entry at 1. rewrite nth_firstn.
    replace (k <? seq_len + 1) with true by (symmetry; now apply Nat.ltb_lt).
    fold (entry (Encodings.get_sin_pos_emb_mat_n seq_len' d 10000) k j).
    rewrite He, He'.
    replace (k <? seq_len + 1) with true by (symmetry; now apply Nat.ltb_lt).
    replace (k <? seq_len' + 1) with true
      by (symmetry; apply Nat.ltb_lt; lia).
    reflexivity.
Qed.

(** An instance of X6. *)
Lemma sin_pos_matrix_prefix_witness :
  firstn (1 + 1) (Encodings.get_sin_pos_emb_mat 3 2)
  = Encodings.get_sin_pos_emb_mat 1 2.
Proof.
  apply (@sin_pos_matrix_prefix 1 3 2). lia.
Defined.

(** ** [Encodings.call]: which batches it takes *)

Lemma closed_form_entry (b n d : nat) (S : tensor3) (P : mat) (i k j : nat) :
  shape3 b n d S -> shape2 n d P -> i < b -> k < n -> j < d ->
  entry3 (map (fun m => map2 (map2 Rplus) m P) S) i k j
  = (entry3 S i k j + entry P k j)%R.
Proof.
  intros [Hb FS] HP Hi Hk Hj. rewrite Forall_forall in FS.
  assert (Hm : shape2 n d (nth i S [])) by (apply FS, nth_In; lia).
  apply shape2_nth in Hm. destruct Hm as [Hml Hmr].
  apply shape2_nth in HP. destruct HP as [HPl HPr].
  unfold entry3, entry.
  rewrite (nth_map_lt _ _ _ [] []) by lia.
  rewrite (nth_map2 _ _ _ _ [] [] []) by lia.
  rewrite (nth_map2 _ _ _ _ 0%R 0%R 0%R) by (rewrite ?Hmr, ?HPr; lia).
  reflexivity.
Qed.

Lemma token_rows_entry (self : Encodings.t) (batch : list (list Z)) (i k j : nat) :
  i < length batch -> k < length (nth i batch []) ->
  entry3 (token_rows self batch) i k j
  = entry (Embedding.embeddings (Encodings.embedding self))
          (Z.to_nat (nth k (nth i batch []) 0%Z)) j.
Proof.
  intros Hi Hk. unfold entry3, entry, token_rows.
  rewrite (nth_map_lt _ _ _ [] []) by assumption.
  now rewrite (nth_map_lt _ _ _ [] 0%Z) by assumption.
Qed.

(** X7.  An encoder with [seq_length >= 1] takes only rows of
    [seq_length + 1] ids or of a single id: on a non-empty batch with rows
    of any other length the call raises, whatever the ids are. *)
Theorem Encodings_call_rejects_row_length (self : Encodings.t) (b n : nat)
  (batch : list (list Z)) :
  Encodings_wf self ->
  1 <= Encodings.seq_length self -> 0 < b ->
  shape2 b n batch ->
  n <> Encodings.seq_length self + 1 -> n <> 1 ->
  Encodings.call self batch = None.
Proof.
  intros W HL Hb [Hlen Frows] Hn Hn1.
  rewrite Encodings_call_steps by assumption.
  destruct (Embedding.call2 _ batch) as [e|] eqn:He; cbn [bind]; [|reflexivity].
  destruct batch as [|ids rest]; [cbn in Hlen; lia|].
  unfold Embedding.call2 in He. cbn [mapM] in He.
  destruct (Embedding.call1 _ ids) as [m|] eqn:Hm; cbn [bind] in He;
    [|discriminate].
  destruct (mapM _ rest) as [ms|]; cbn [bind] in He; [|discriminate].
  injection He as <-.
  apply mapM_Forall2, Forall2_length in Hm.
  pose proof (Forall_inv Frows) as Hids. cbn beta in Hids.
  destruct (@pos_table_shape self W) as [HP _].
  unfold tf.mul_scalar3, tf.add3_2. cbn [map mapM].
  rewrite add2_mismatch; [reflexivity| | |].
  - rewrite length_map, <- Hm, HP, Hids. exact Hn.
  - rewrite length_map, <- Hm, Hids. exact Hn1.
  - rewrite HP. lia.
Qed.

(** An instance of X7: four ids per row for [seq_length = 2]. *)
Lemma Encodings_call_rejects_row_length_witness :
  Encodings.call enc_len2 [[0; 1; 0; 1]]%Z = None.
Proof.
  apply (@Encodings_call_rejects_row_length enc_len2 1 4 [[0; 1; 0; 1]]%Z).
  - apply Encodings_init_wf; literal_shape.
  - cbn. lia.
  - lia.
  - literal_shape.
  - cbn. lia.
  - lia.
Defined.

Lemma add2_single_row (d m : nat) (a : vec) (p : mat) :
  length a = d -> shape2 m d p ->
  tf.add2 [a] p = Some (map (fun prow => map2 Rplus a prow) p).
Proof.
  intros Ha [Hm Fp]. rewrite Forall_forall in Fp.
  assert (Hrow : forall prow, In prow p ->
                   tf.add1 a prow = Some (map2 Rplus a prow)).
  { intros prow Hin. apply add1_same_width. now rewrite Ha, (Fp prow Hin). }
  unfold tf.add2, tf.broadcast. cbn [length].
  destruct (Nat.eqb_spec 1 (length p)) as [E|E].
  - destruct p as [|p0 [|p1 p]]; cbn in E; try lia.
    cbn [mapM2 map]. rewrite (Hrow p0) by now left. reflexivity.
  - now apply mapM_Some_map.
Qed.

Lemma add2_single_pos (n d : nat) (x : mat) (p0 : vec) :
  shape2 n d x -> length p0 = d ->
  tf.add2 x [p0] = Some (map (fun a => map2 Rplus a p0) x).
Proof.
  intros [Hn Fx] Hp. rewrite Forall_forall in Fx.
  assert (Hrow : forall a, In a x -> tf.add1 a p0 = Some (map2 Rplus a p0)).
  { intros a Hin. apply add1_same_width. now rewrite Hp, (Fx a Hin). }
  unfold tf.add2, tf.broadcast. cbn [length].
  destruct (Nat.eqb_spec (length x) 1) as [E|E].
  - destruct x as [|a [|a' x]]; cbn in E; try lia.
    cbn [mapM2 map]. rewrite (Hrow a) by now left. reflexivity.
  - destruct x as [|a [|a' x]]; [reflexivity|cbn in E; lia|].
    now apply mapM_Some_map.
Qed.

(** X8.  A batch with a single id per row is broadcast over the positions:
    the call returns [seq_length + 1] positions per sequence, each of them
    the scaled embedding of that one token plus the positional row of the
    position. *)
Theorem Encodings_call_single_id_rows (self : Encodings.t) (b : nat)
  (batch : list (list Z)) :
  Encodings_wf self ->
  shape2 b 1 batch ->
  ids_in_range (Encodings.vocab_size self + 2) batch ->
  exists out,
    Encodings.call self batch = Some out /\
    shape3 b (Encodings.seq_length self + 1) (Encodings.embedding_dim self) out /\
    forall i k j,
      i < b -> k < Encodings.seq_length self + 1 ->
      j < Encodings.embedding_dim self ->
      entry3 out i k j =
      (entry3 (token_rows self batch) i 0 j
       * sqrt (INR (Encodings.embedding_dim self))
       + entry (pos_table self) k j)%R.
Proof.
  intros W Hs Hr.
  pose proof (@token_rows_shape self b 1 batch W Hs Hr) as Ht.
  apply (@mul_scalar3_shape _ _ _ _
           (sqrt (INR (Encodings.embedding_dim self)))) in Ht.
  pose proof (@pos_table_shape self W) as HP.
  set (S := tf.mul_scalar3 (token_rows self batch)
              (sqrt (INR (Encodings.embedding_dim self)))) in *.
  exists (map (fun m => map (fun prow => map2 Rplus (nth 0 m []) prow)
                            (pos_table self)) S).
  destruct Ht as [Hb FS]. rewrite Forall_forall in FS.
  assert (Hfirst : forall m, In m S ->
            m = [nth 0 m []] /\
            length (nth 0 m []) = Encodings.embedding_dim self).
  { intros m Hm. destruct (FS m Hm) as [Hl Fm].
    destruct m as [|a [|a' m]]; cbn in Hl; try lia.
    split; [reflexivity|]. exact (Forall_inv Fm). }
  split; [|split].
  - rewrite Encodings_call_steps by assumption.
    rewrite call2_in_range;
      [|rewrite (wf_tok_dim W); apply (wf_tok W)|now rewrite (wf_tok_dim W)].
    cbn [bind]. fold (token_rows self batch). fold S.
    unfold tf.add3_2. apply mapM_Some_map. intros m Hm.
    destruct (Hfirst m Hm) as [Em Hl]. rewrite Em at 1.
    now apply (@add2_single_row (Encodings.embedding_dim self)
                 (Encodings.seq_length self + 1)).
  - split; [now rewrite length_map|].
    apply Forall_map, Forall_forall. intros m Hm.
    destruct (Hfirst m Hm) as [_ Hl]. destruct HP as [HPl FP].
    split; [now rewrite length_map|].
    apply Forall_map. eapply Forall_impl; [|exact FP].
    intros prow Hrow. cbn beta. rewrite length_map2, Hl, Hrow. lia.
  - intros i k j Hi Hk Hj.
    assert (Hin : In (nth i S []) S) by (apply nth_In; lia).
    destruct (Hfirst _ Hin) as [_ Hl].
    apply shape2_nth in HP. destruct HP as [HPl HPr].
    rewrite <- entry3_mul_scalar3. fold S.
    unfold entry3, entry.
    rewrite (nth_map_lt _ _ _ [] []) by lia.
    rewrite (nth_map_lt _ _ _ [] []) by lia.
    rewrite (nth_map2 _ _ _ _ 0%R 0%R 0%R) by (rewrite ?Hl, ?HPr; lia).
    reflexivity.
Qed.

(** An instance of X8: one id for [seq_length = 2] gives three positions. *)
Lemma Encodings_call_single_id_rows_witness :
  exists out,
    Encodings.call enc_len2 [[1]]%Z = Some out /\
    shape3 1 (2 + 1) 1 out /\
    forall i k j,
      i < 1 -> k < 2 + 1 -> j < 1 ->
      entry3 out i k j =
      (entry3 (token_rows enc_len2 [[1]]%Z) i 0 j * sqrt (INR 1)
       + entry (pos_table enc_len2) k j)%R.
Proof.
  apply (@Encodings_call_single_id_rows enc_len2 1 [[1]]%Z).
  - apply Encodings_init_wf; literal_shape.
  - literal_shape.
  - literal_ids.
Defined.

(** X9.  With [seq_length = 0] the positional table has one row, which is
    added at every position: rows of any length are taken. *)
Theorem Encodings_call_seq_length_zero (self : Encodings.t) (b n : nat)
  (batch : list (list Z)) :
  Encodings_wf self ->
  Encodings.seq_length self = 0 ->
  shape2 b n batch ->
  ids_in_range (Encodings.vocab_size self + 2) batch ->
  exists out,
    Encodings.call self batch = Some out /\
    shape3 b n (Encodings.embedding_dim self) out /\
    forall i k j,
      i < b -> k < n -> j < Encodings.embedding_dim self ->
      entry3 out i k j =
      (entry3 (token_rows self batch) i k j
       * sqrt (INR (Encodings.embedding_dim self))
       + entry (pos_table self) 0 j)%R.
Proof.
  intros W HL Hs Hr.
  pose proof (@token_rows_shape self b n batch W Hs Hr) as Ht.
  apply (@mul_scalar3_shape _ _ _ _
           (sqrt (INR (Encodings.embedding_dim self)))) in Ht.
  pose proof (@pos_table_shape self W) as HP. rewrite HL in HP.
  set (S := tf.mul_scalar3 (token_rows self batch)
              (sqrt (INR (Encodings.embedding_dim self)))) in *.
  destruct HP as [HPl FP].
  destruct (pos_table self) as [|p0 [|p1 P]] eqn:EP; cbn in HPl; try lia.
  pose proof (Forall_inv FP) as Hp0. cbn beta in Hp0.
  exists (map (fun m => map (fun a => map2 Rplus a p0) m) S).
  destruct Ht as [Hb FS].
  split; [|split].
  - rewrite Encodings_call_steps by assumption.
    rewrite call2_in_range;
      [|rewrite (wf_tok_dim W); apply (wf_tok W)|now rewrite (wf_tok_dim W)].
    cbn [bind]. fold (token_rows self batch). fold S. rewrite EP.
    unfold tf.add3_2. apply mapM_Some_map. intros m Hm.
    rewrite Forall_forall in FS.
    now apply (@add2_single_pos n (Encodings.embedding_dim self)); [apply FS|].
  - split; [now rewrite length_map|].
    apply Forall_map. eapply Forall_impl; [|exact FS].
    intros m [Hml Fm]. split; [now rewrite length_map|].
    apply Forall_map. eapply Forall_impl; [|exact Fm].
    intros a Ha. cbn beta in *. rewrite length_map2, Ha, Hp0. lia.
  - intros i k j Hi Hk Hj. rewrite Forall_forall in FS.
    assert (Hm : shape2 n (Encodings.embedding_dim self) (nth i S []))
      by (apply FS, nth_In; lia).
    apply shape2_nth in Hm. destruct Hm as [Hml Hmr].
    rewrite <- entry3_mul_scalar3. fold S.
    unfold entry3, entry. cbn [nth].
    rewrite (nth_map_lt _ _ _ [] []) by lia.
    rewrite (nth_map_lt _ _ _ [] []) by lia.
    rewrite (nth_map2 _ _ _ _ 0%R 0%R 0%R) by (rewrite ?Hmr, ?Hp0; lia).
    reflexivity.
Qed.

(** An instance of X9: three ids for [seq_length = 0]. *)
Lemma Encodings_call_seq_length_zero_witness :
  exists out,
    Encodings.call enc_nopos [[0; 1; 0]]%Z = Some out /\
    shape3 1 3 1 out /\
    forall i k j,
      i < 1 -> k < 3 -> j < 1 ->
      entry3 out i k j =
      (entry3 (token_rows enc_nopos [[0; 1; 0]]%Z) i k j * sqrt (INR 1)
       + entry (pos_table enc_nopos) 0 j)%R.
Proof.
  apply (@Encodings_call_seq_length_zero enc_nopos 1 3 [[0; 1; 0]]%Z).
  - apply Encodings_init_wf; literal_shape.
  - reflexivity.
  - literal_shape.
  - literal_ids.
Defined.

(** X10.  The encoder of the fixed branch, end to end: at position [k] of a
    sequence the columns [2t] and [2t+1] of the output are the token's
    embedding entries times [sqrt emb_dim] plus [sin (k / 10000^(2t/d))]
    and [cos (k / 10000^(2t/d))]; the trainable positional table plays no
    part. *)
Theorem Encodings_call_sin_cos_entries
  (emb_dim seq_length vocab_size : nat) (w_tok w_pos : mat)
  (b : nat) (batch : list (list Z)) (i k t : nat) :
  shape2 (vocab_size + 2) emb_dim w_tok ->
  shape2 (seq_length + 1) emb_dim w_pos ->
  shape2 b (seq_length + 1) batch ->
  ids_in_range (vocab_size + 2) batch ->
  i < b -> k <= seq_length -> t < emb_dim / 2 ->
  exists out,
    Encodings.call
      (Encodings.__init__ emb_dim seq_length vocab_size true "SIN_COS"
         w_tok w_pos) batch = Some out /\
    entry3 out i k (2 * t) =
      (entry w_tok (Z.to_nat (nth k (nth i batch []) 0%Z)) (2 * t)
       * sqrt (INR emb_dim)
       + sin (INR k / Rpower 10000 (2 * INR t / INR emb_dim)))%R /\
    entry3 out i k (2 * t + 1) =
      (entry w_tok (Z.to_nat (nth k (nth i batch []) 0%Z)) (2 * t + 1)
       * sqrt (INR emb_dim)
       + cos (INR k / Rpower 10000 (2 * INR t / INR emb_dim)))%R.
Proof.
  intros Htok Hpos Hs Hr Hi Hk Ht.
  set (self := Encodings.__init__ emb_dim seq_length vocab_size true "SIN_COS"
                 w_tok w_pos).
  assert (W : Encodings_wf self) by now apply Encodings_init_wf.
  assert (Hd : 2 * (emb_dim / 2) <= emb_dim) by apply Nat.Div0.mul_div_le.
  eexists. split; [now apply (@Encodings_call_closed self b)|].
  pose proof (@token_rows_shape self b _ batch W Hs Hr) as HT.
  apply (@mul_scalar3_shape _ _ _ _ (sqrt (INR emb_dim))) in HT.
  pose proof (@pos_table_shape self W) as HP.
  destruct Hs as [Hb Frows]. rewrite Forall_forall in Frows.
  assert (Hrow : length (nth i batch []) = seq_length + 1)
    by (apply Frows, nth_In; lia).
  destruct (@sin_pos_entries seq_length emb_dim 10000 k t Hk Ht) as [Hsin Hcos].
  change (Encodings.embedding_dim self) with emb_dim in *.
  change (Encodings.seq_length self) with seq_length in *.
  split.
  - rewrite (@closed_form_entry b (seq_length + 1) emb_dim) by (assumption || lia).
    rewrite entry3_mul_scalar3, token_rows_entry by lia.
    change (pos_table self)
      with (Encodings.get_sin_pos_emb_mat_n seq_length emb_dim 10000).
    now rewrite Hsin.
  - rewrite (@closed_form_entry b (seq_length + 1) emb_dim) by (assumption || lia).
    rewrite entry3_mul_scalar3, token_rows_entry by lia.
    change (pos_table self)
      with (Encodings.get_sin_pos_emb_mat_n seq_length emb_dim 10000).
    now rewrite Hcos.
Qed.

(** An instance of X10: position 1 of a sequence of two ids, width 2. *)
Lemma Encodings_call_sin_cos_entries_witness :
  exists out,
    Encodings.call
      (Encodings.__init__ 2 1 0 true "SIN_COS"
         [[1; 0]; [0; 1]]%R [[0; 0]; [0; 0]]%R) [[0; 1]]%Z = Some out /\
    entry3 out 0 1 (2 * 0) =
      (entry [[1; 0]; [0; 1]]%R (Z.to_nat (nth 1 (nth 0 [[0; 1]]%Z []) 0%Z)) (2 * 0)
       * sqrt (INR 2)
       + sin (INR 1 / Rpower 10000 (2 * INR 0 / INR 2)))%R /\
    entry3 out 0 1 (2 * 0 + 1) =
      (entry [[1; 0]; [0; 1]]%R (Z.to_nat (nth 1 (nth 0 [[0; 1]]%Z []) 0%Z))
         (2 * 0 + 1)
       * sqrt (INR 2)
       + cos (INR 1 / Rpower 10000 (2 * INR 0 / INR 2)))%R.
Proof.
  apply (@Encodings_call_sin_cos_entries 2 1 0 [[1; 0]; [0; 1]]%R
           [[0; 0]; [0; 0]]%R 1 [[0; 1]]%Z 0 1 0).
  - literal_shape.
  - literal_shape.
  - literal_shape.
  - literal_ids.
  - lia.
  - lia.
  - cbn. lia.
Defined.

(** ** [Attention.split_heads] *)

Lemma concat_chunks {A : Type} (w m : nat) (l : list A) :
  length l = m * w ->
  concat (map (fun i => firstn w (skipn (i * w) l)) (seq 0 m)) = l.
Proof.
  revert l. induction m as [|m IH]; intros l Hl.
  - destruct l; [reflexivity|discriminate].
  - cbn [seq map concat]. cbn [Nat.mul skipn].
    rewrite <- seq_shift, map_map.
    rewrite (map_ext _ (fun i => firstn w (skipn (i * w) (skipn w l)))).
    + rewrite IH; [apply firstn_skipn|].
      rewrite length_skipn, Hl. cbn [Nat.mul]. lia.
    + intros i. rewrite skipn_skipn. f_equal. f_equal. lia.
Qed.

Lemma concat_head_slices (H hs : nat) (row : vec) :
  length row = H * hs ->
  concat (map (fun h => AttentionSpec.head_slice hs h row) (seq 0 H)) = row.
Proof. intros Hl. now apply concat_chunks. Qed.

Lemma nth_head_slice (hs h j : nat) (row : vec) :
  j < hs ->
  nth j (AttentionSpec.head_slice hs h row) 0%R = nth (h * hs + j) row 0%R.
Proof.
  intros Hj. unfold AttentionSpec.head_slice.
  rewrite nth_firstn, nth_skipn.
  now replace (j <? hs) with true by (symmetry; now apply Nat.ltb_lt).
Qed.

Lemma map_nth_all {A : Type} (l : list A) (d : A) :
  map (fun i => nth i l d) (seq 0 (length l)) = l.
Proof.
  apply (nth_ext _ _ d d); [now rewrite length_map, length_seq|].
  intros i Hi. rewrite length_map, length_seq in Hi.
  rewrite (nth_map_lt _ _ _ _ 0) by now rewrite length_seq.
  now rewrite seq_nth.
Qed.

Lemma split_heads1_rows (self : Attention.t) (X : mat) :
  Attention_wf self ->
  0 < Attention.attention_head_size self ->
  Forall (fun row => length row = Attention.all_head_size self) X ->
  Attention.split_heads1 self X =
  Some (AttentionSpec.heads (Attention.num_att_heads self)
          (Attention.attention_head_size self) X).
Proof.
  intros W Hhs F. unfold Attention.split_heads1.
  rewrite (wf_all W) in F.
  rewrite reshape_infer_concat; [|pose proof (wf_heads W); nia|assumption].
  cbn [bind]. now rewrite split_rows_heads.
Qed.

Lemma split_heads_rows (self : Attention.t) (b n : nat) (x : tensor3) (b' : nat) :
  Attention_wf self ->
  0 < Attention.attention_head_size self ->
  shape3 b n (Attention.all_head_size self) x ->
  Attention.split_heads self x b' =
  Some (map (AttentionSpec.heads (Attention.num_att_heads self)
               (Attention.attention_head_size self)) x).
Proof.
  intros W Hhs [Hb Fx]. unfold Attention.split_heads.
  apply mapM_Some_map. intros X HX. rewrite Forall_forall in Fx.
  apply split_heads1_rows; try assumption. now apply Fx.
Qed.

(** X11.  [split_heads] turns a tensor of shape [(b, n, heads * head_size)]
    into one of shape [(b, heads, n, head_size)]: head [h] gets, at every
    position, the [head_size] consecutive entries from column
    [h * head_size] on. *)
Theorem split_heads_entries (num_heads emb_dim : nat) (w : Attention.weights)
  (self : Attention.t) (b n : nat) (x : tensor3) (bi h i j : nat) :
  Attention.__init__ num_heads emb_dim w = Some self ->
  0 < Attention.attention_head_size self ->
  shape3 b n (Attention.all_head_size self) x ->
  bi < b -> h < num_heads -> i < n -> j < Attention.attention_head_size self ->
  exists t,
    Attention.split_heads self x b = Some t /\
    shape4 b num_heads n (Attention.attention_head_size self) t /\
    nth j (nth i (nth h (nth bi t []) []) []) 0%R
    = entry3 x bi i (h * Attention.attention_head_size self + j).
Proof.
  intros Hinit Hhs Hx Hbi Hh Hi Hj. apply Attention_init_wf in Hinit.
  destruct Hinit as (W & HH & _). rewrite <- HH in *.
  eexists. split; [now apply (@split_heads_rows self b n)|].
  destruct Hx as [Hb Fx]. split.
  - split; [now rewrite length_map|].
    apply Forall_map. eapply Forall_impl; [|exact Fx].
    intros X [HX FX]. rewrite <- HX. apply heads_shape.
    now rewrite <- (wf_all W).
  - rewrite Forall_forall in Fx.
    assert (Hin : In (nth bi x []) x) by (apply nth_In; lia).
    destruct (Fx _ Hin) as [HX FX].
    rewrite (nth_map_lt _ _ _ [] []) by lia.
    unfold AttentionSpec.heads.
    rewrite (nth_map_lt _ _ _ [] 0) by (rewrite length_seq; lia).
    rewrite seq_nth by lia. cbn [Nat.add].
    rewrite (nth_map_lt _ _ _ [] []) by lia.
    now rewrite nth_head_slice.
Qed.

(** An instance of X11: the second head of [att_2heads] at position 0. *)
Lemma split_heads_entries_witness :
  exists t,
    Attention.split_heads att_2heads hidden_1x2x2 1 = Some t /\
    shape4 1 2 2 (Attention.attention_head_size att_2heads) t /\
    nth 0 (nth 0 (nth 1 (nth 0 t []) []) []) 0%R
    = entry3 hidden_1x2x2 0 0 (1 * Attention.attention_head_size att_2heads + 0).
Proof.
  apply (@split_heads_entries 2 2 w_id2 att_2heads 1 2 hidden_1x2x2 0 1 0 0).
  - reflexivity.
  - cbn. lia.
  - split; [reflexivity|]. repeat constructor.
  - lia.
  - lia.
  - lia.
  - cbn. lia.
Defined.

Lemma merge_heads (H hs : nat) (X : mat) :
  0 < H -> 0 < hs ->
  Forall (fun row => length row = H * hs) X ->
  let c := AttentionSpec.heads H hs X in
  tf.reshape_infer (H * hs)
    (concat (concat (tf.transpose01 (length (hd [] c)) c))) = Some X.
Proof.
  intros HH Hhs F c.
  assert (Hn : length (hd [] c) = length X).
  { unfold c, AttentionSpec.heads. destruct H as [|H]; [lia|].
    cbn [seq map hd]. apply length_map. }
  rewrite Hn, concat_concat. unfold tf.transpose01. rewrite map_map.
  rewrite (map_ext_in _ (fun i => nth i X [])).
  - rewrite map_nth_all. apply reshape_infer_concat; [nia|assumption].
  - intros i Hi. apply in_seq in Hi. unfold c, AttentionSpec.heads.
    rewrite map_map.
    rewrite (map_ext _ (fun h => AttentionSpec.head_slice hs h (nth i X []))).
    + apply concat_head_slices. rewrite Forall_forall in F.
      apply F, nth_In. lia.
    + intros h. now rewrite (nth_map_lt _ _ _ [] []) by lia.
Qed.

(** X12.  The transposition and reshape that [call] applies to the context
    undo [split_heads]: for [num_heads] dividing a positive [emb_dim],
    splitting a tensor of width [emb_dim] into heads and merging the heads
    again returns the tensor. *)
Theorem split_merge_round_trip (num_heads emb_dim : nat) (w : Attention.weights)
  (self : Attention.t) (b n : nat) (x : tensor3) :
  Attention.__init__ num_heads emb_dim w = Some self ->
  emb_dim mod num_heads = 0 -> 0 < emb_dim ->
  shape3 b n emb_dim x ->
  exists t,
    Attention.split_heads self x b = Some t /\
    mapM (fun c => tf.reshape_infer (Attention.emb_dim self) (concat (concat c)))
         (map (fun c => tf.transpose01 (length (hd [] c)) c) t)
    = Some x.
Proof.
  intros Hinit Hmod Hpos Hx. apply Attention_init_wf in Hinit.
  destruct Hinit as (W & HH & HD).
  rewrite <- HH, <- HD in Hmod. rewrite <- HD in Hpos, Hx.
  destruct (divisible_head_size self W Hmod Hpos) as [Hhs HDA].
  assert (HA : Attention.all_head_size self = Attention.emb_dim self)
    by (rewrite (wf_all W); congruence).
  eexists. split.
  - apply (@split_heads_rows self b n); try assumption. now rewrite HA.
  - rewrite map_map, mapM_map.
    rewrite <- (map_id x) at 2. apply mapM_Some_map. intros X HX.
    destruct Hx as [_ Fx]. rewrite Forall_forall in Fx.
    destruct (Fx X HX) as [_ FX]. rewrite HDA in *.
    apply merge_heads; [apply (wf_heads W)|assumption|assumption].
Qed.

(** An instance of X12. *)
Lemma split_merge_round_trip_witness :
  exists t,
    Attention.split_heads att_2heads hidden_1x2x2 1 = Some t /\
    mapM (fun c => tf.reshape_infer (Attention.emb_dim att_2heads)
                     (concat (concat c)))
         (map (fun c => tf.transpose01 (length (hd [] c)) c) t)
    = Some hidden_1x2x2.
Proof.
  apply (@split_merge_round_trip 2 2 w_id2 att_2heads 1 2 hidden_1x2x2).
  - reflexivity.
  - reflexivity.
  - lia.
  - split; [reflexivity|]. repeat constructor.
Defined.

(** ** [Attention.call]: the last reshape *)

Lemma context_flat_length (self : Attention.t) (X : mat) :
  Attention_wf self ->
  length (concat (concat (tf.transpose01 (length X)
                            (AttentionSpec.contexts1 self X))))
  = length X * Attention.all_head_size self.
Proof.
  intros W. rewrite concat_concat. unfold tf.transpose01. rewrite map_map.
  change (map _ (seq 0 (length X))) with (AttentionSpec.recombined1 self X).
  destruct (recombined1_shape self X W) as [Hl F].
  now rewrite (length_concat_rows _ _ F), Hl, (wf_all W).
Qed.

(** X14.  The last reshape of [call] cuts the [n * all_head_size] context
    entries of a sequence into rows of width [emb_dim].  When that does not
    divide evenly the call raises; when it does, the output has
    [n * all_head_size / emb_dim] positions, which for a number of heads
    not dividing [emb_dim] is fewer than the [n] positions of the input. *)
Theorem Attention_call_reshape_rule (num_heads emb_dim : nat)
  (w : Attention.weights) (self : Attention.t) (b n : nat)
  (hidden_states : tensor3) :
  Attention.__init__ num_heads emb_dim w = Some self ->
  num_heads <= emb_dim -> 0 < b ->
  length hidden_states = b ->
  Forall (fun X => length X = n) hidden_states ->
  ((n * Attention.all_head_size self) mod emb_dim <> 0 ->
   Attention.call self hidden_states = None) /\
  ((n * Attention.all_head_size self) mod emb_dim = 0 ->
   exists att_output attention_probs,
     Attention.call self hidden_states = Some (att_output, attention_probs) /\
     shape3 b (n * Attention.all_head_size self / emb_dim) emb_dim att_output /\
     shape4 b num_heads n n attention_probs) /\
  (emb_dim mod num_heads <> 0 -> 0 < n ->
   n * Attention.all_head_size self / emb_dim < n).
Proof.
  intros Hinit Hle Hb Hlen Fn. apply Attention_init_wf in Hinit.
  destruct Hinit as (W & HH & HD). rewrite <- HH, <- HD in *.
  pose proof (wf_heads W) as Hheads.
  assert (Hhs : 0 < Attention.attention_head_size self).
  { rewrite (wf_head_size W). apply Nat.div_str_pos. lia. }
  assert (HDpos : 0 < Attention.emb_dim self) by lia.
  rewrite Forall_forall in Fn.
  split; [|split].
  - intros Hmod. rewrite Attention_call_closed by assumption.
    destruct hidden_states as [|X rest]; [cbn in Hlen; lia|].
    cbn [map mapM]. unfold tf.reshape_infer at 1.
    replace (Attention.emb_dim self =? 0) with false
      by (symmetry; apply Nat.eqb_neq; lia).
    rewrite context_flat_length, (Fn X (or_introl eq_refl)) by assumption.
    replace (_ mod _ =? 0) with false by (symmetry; now apply Nat.eqb_neq).
    reflexivity.
  - intros Hmod. rewrite Attention_call_closed by assumption.
    rewrite mapM_map.
    rewrite (mapM_Some_map _
               (fun X => tf.rows_of (Attention.emb_dim self)
                           (concat (concat (tf.transpose01 (length X)
                              (AttentionSpec.contexts1 self X)))))).
    + cbn [bind]. eexists. eexists. split; [reflexivity|]. split.
      * split; [unfold Dense.call3; now rewrite !length_map|].
        unfold Dense.call3. rewrite map_map.
        apply Forall_map, Forall_forall. intros X HX.
        pose proof (Dense_call2_shape (Attention.out self)
                      (tf.rows_of (Attention.emb_dim self)
                         (concat (concat (tf.transpose01 (length X)
                            (AttentionSpec.contexts1 self X)))))) as Hs.
        rewrite (wf_out W) in Hs. unfold tf.rows_of at 1 in Hs.
        rewrite length_map, length_seq, context_flat_length,
          (Fn X HX) in Hs by assumption.
        rewrite (Fn X HX). exact Hs.
      * split; [now rewrite length_map|].
        apply Forall_map, Forall_forall. intros X HX.
        rewrite <- (Fn X HX). now apply attention_probs1_shape.
    + intros X HX. unfold tf.reshape_infer.
      replace (Attention.emb_dim self =? 0) with false
        by (symmetry; apply Nat.eqb_neq; lia).
      rewrite context_flat_length, (Fn X HX), Hmod by assumption.
      reflexivity.
  - intros Hmod Hn. apply Nat.Div0.div_lt_upper_bound.
    rewrite (wf_all W), (wf_head_size W).
    pose proof (Nat.div_mod_eq (Attention.emb_dim self)
                  (Attention.num_att_heads self)).
    nia.
Qed.

(** An instance of X14: [Attention(2, 3)] on a sequence of three positions
    returns a sequence of two positions. *)
Lemma Attention_call_reshape_rule_witness :
  ((3 * Attention.all_head_size att_2of3) mod 3 <> 0 ->
   Attention.call att_2of3 hidden_1x3x3 = None) /\
  ((3 * Attention.all_head_size att_2of3) mod 3 = 0 ->
   exists att_output attention_probs,
     Attention.call att_2of3 hidden_1x3x3
       = Some (att_output, attention_probs) /\
     shape3 1 (3 * Attention.all_head_size att_2of3 / 3) 3 att_output /\
     shape4 1 2 3 3 attention_probs) /\
  (3 mod 2 <> 0 -> 0 < 3 -> 3 * Attention.all_head_size att_2of3 / 3 < 3).
Proof.
  apply (@Attention_call_reshape_rule 2 3 w_2of3 att_2of3 1 3 hidden_1x3x3).
  - reflexivity.
  - lia.
  - lia.
  - reflexivity.
  - repeat constructor.
Defined.

(** ** [Attention.call] on sequences of one position *)

Lemma map_const_seq {A : Type} (a : A) (n : nat) :
  map (fun _ => a) (seq 0 n) = repeat a n.
Proof.
  generalize 0. induction n as [|n IH]; intros s; cbn; [reflexivity|].
  now rewrite IH.
Qed.

Lemma softmax_single (z : R) : tf.softmax [z] = [1%R].
Proof.
  unfold tf.softmax, sum. cbn [map fold_right]. f_equal.
  pose proof (exp_pos z). field. lra.
Qed.

Lemma weighted_sum_single (hs : nat) (v : vec) :
  length v = hs -> AttentionSpec.weighted_sum hs [1%R] [v] = v.
Proof.
  intros <-. unfold AttentionSpec.weighted_sum, np.zeros.
  cbn [map2 fold_right].
  induction v as [|a v IH]; cbn; [reflexivity|].
  rewrite IH. f_equal. lra.
Qed.

Lemma attention_probs1_single (self : Attention.t) (x : vec) :
  AttentionSpec.attention_probs1 self [x]
  = repeat [[1%R]] (Attention.num_att_heads self).
Proof.
  unfold AttentionSpec.attention_probs1, AttentionSpec.heads.
  rewrite map2_map_map, <- map_const_seq. apply map_ext. intros h.
  unfold AttentionSpec.probs, AttentionSpec.scaled_scores,
    AttentionSpec.raw_scores, Dense.call2.
  cbn [map]. now rewrite spec_softmax_eq, softmax_single.
Qed.

Lemma output1_single (self : Attention.t) (x : vec) :
  Attention_wf self ->
  AttentionSpec.output1 self [x]
  = [Dense.call1 (Attention.out self) (Dense.call1 (Attention.value self) x)].
Proof.
  intros W.
  assert (Hv : length (Dense.call1 (Attention.value self) x)
               = Attention.num_att_heads self * Attention.attention_head_size self)
    by now rewrite Dense_call1_length, (wf_value W), (wf_all W).
  assert (HC : AttentionSpec.contexts1 self [x]
               = map (fun h => [AttentionSpec.head_slice
                                  (Attention.attention_head_size self) h
                                  (Dense.call1 (Attention.value self) x)])
                     (seq 0 (Attention.num_att_heads self))).
  { unfold AttentionSpec.contexts1. rewrite attention_probs1_single.
    rewrite <- map_const_seq. unfold AttentionSpec.heads, Dense.call2.
    rewrite map2_map_map. apply map_ext_in. intros h Hh. apply in_seq in Hh.
    cbn [map]. rewrite weighted_sum_single; [reflexivity|].
    apply (@length_head_slice (Attention.num_att_heads self)); [assumption|lia]. }
  unfold AttentionSpec.output1, AttentionSpec.recombined1. rewrite HC.
  cbn [length seq map]. rewrite map_map. cbn [nth].
  rewrite concat_head_slices by assumption.
  now rewrite (Dense_call1_affine (Attention.out self)), (wf_out W).
Qed.

(** X15.  On sequences of one position attention has nothing to choose
    from: every head gives weight 1 to the position, and the output of the
    layer is the output projection of the value projection of the input;
    the query and key weights play no part. *)
Theorem Attention_call_single_position (num_heads emb_dim : nat)
  (w : Attention.weights) (self : Attention.t) (hidden_states : tensor3) :
  Attention.__init__ num_heads emb_dim w = Some self ->
  emb_dim mod num_heads = 0 -> 0 < emb_dim ->
  Forall (fun X => length X = 1) hidden_states ->
  Attention.call self hidden_states
  = Some (map (map (fun x => Dense.call1 (Attention.out self)
                               (Dense.call1 (Attention.value self) x)))
              hidden_states,
          map (fun _ => repeat [[1%R]] num_heads) hidden_states).
Proof.
  intros Hinit Hmod Hpos F1. apply Attention_init_wf in Hinit.
  destruct Hinit as (W & HH & HD).
  rewrite <- HH, <- HD in Hmod. rewrite <- HD in Hpos.
  destruct (divisible_head_size self W Hmod Hpos) as [Hhs HDA].
  rewrite Attention_call_attend by assumption.
  unfold AttentionSpec.attend. rewrite Forall_forall in F1.
  f_equal. f_equal.
  - apply map_ext_in. intros X HX. specialize (F1 X HX).
    destruct X as [|x [|x' X]]; cbn in F1; try lia.
    now rewrite output1_single.
  - apply map_ext_in. intros X HX. specialize (F1 X HX).
    destruct X as [|x [|x' X]]; cbn in F1; try lia.
    now rewrite attention_probs1_single, HH.
Qed.

(** An instance of X15: [att_2heads] on two sequences of one position. *)
Lemma Attention_call_single_position_witness :
  Attention.call att_2heads [[[1; 2]]; [[3; 4]]]%R
  = Some (map (map (fun x => Dense.call1 (Attention.out att_2heads)
                               (Dense.call1 (Attention.value att_2heads) x)))
              [[[1; 2]]; [[3; 4]]]%R,
          map (fun _ => repeat [[1%R]] 2) [[[1; 2]]; [[3; 4]]]%R).
Proof.
  apply (@Attention_call_single_position 2 2 w_id2 att_2heads
           [[[1; 2]]; [[3; 4]]]%R).
  - reflexivity.
  - reflexivity.
  - lia.
  - repeat constructor.
Defined.

(** ** [_Model.build] and the forward pass at the edges *)



(** X17.  With a positive number of heads, no more than [emb_dim], [build]
    succeeds: it creates [num_att_layers] attention layers, each with
    [num_heads] heads of size [emb_dim / num_heads] on width [emb_dim],
    marks the object as built and changes nothing else. *)
Theorem build_creates_layers (self : _Model.t) (ws : list Attention.weights) :
  0 < _Model.num_heads self ->
  _Model.num_heads self <= _Model.emb_dim self ->
  exists self',
    _Model.build self ws = Some self' /\
    _Model.built self' = true /\
    length (_Model.att_layers self') = _Model.num_att_layers self /\
    Forall (fun a =>
              Attention.num_att_heads a = _Model.num_heads self /\
              Attention.emb_dim a = _Model.emb_dim self /\
              Attention.attention_head_size a
                = _Model.emb_dim self / _Model.num_heads self /\
              Attention.all_head_size a
                = _Model.num_heads self
                  * (_Model.emb_dim self / _Model.num_heads self))
           (_Model.att_layers self') /\
    _Model.encodings self' = _Model.encodings self /\
    _Model.head self' = _Model.head self /\
    _Model.agg_method self' = _Model.agg_method self /\
    _Model.num_att_layers self' = _Model.num_att_layers self.
Proof.
  intros Hn Hle.
  destruct (build_loop_total (_Model.num_heads self) (_Model.emb_dim self) ws
              (seq 0 (_Model.num_att_layers self)) [] Hn Hle) as (layers & Hl).
  assert (Hb : _Model.build self ws <> None).
  { unfold _Model.build. rewrite Hl. discriminate. }
  destruct (_Model.build self ws) as [self'|] eqn:E; [|congruence].
  exists self'. split; [reflexivity|].
  apply build_fields in E.
  destruct E as (Hbuilt & Henc & _ & _ & Hagg & _ & HN & Hhead & Hlen & FL).
  repeat (split; [assumption|]). split.
  - eapply Forall_impl; [|exact FL]. intros a [w Hw].
    apply Attention_init_wf in Hw. destruct Hw as (W & HH & HD).
    rewrite (wf_all W), (wf_head_size W), HH, HD. tauto.
  - tauto.
Qed.

(** An instance of X17. *)
Lemma build_creates_layers_witness :
  exists self',
    _Model.build (model_len1 "TOKEN") [w_id2] = Some self' /\
    _Model.built self' = true /\
    length (_Model.att_layers self') = 1 /\
    Forall (fun a =>
              Attention.num_att_heads a = 2 /\
              Attention.emb_dim a = 2 /\
              Attention.attention_head_size a = 2 / 2 /\
              Attention.all_head_size a = 2 * (2 / 2))
           (_Model.att_layers self') /\
    _Model.encodings self' = _Model.encodings (model_len1 "TOKEN") /\
    _Model.head self' = _Model.head (model_len1 "TOKEN") /\
    _Model.agg_method self' = "TOKEN"%string /\
    _Model.num_att_layers self' = 1.
Proof.
  apply (@build_creates_layers (model_len1 "TOKEN") [w_id2]).
  - cbn. lia.
  - cbn. lia.
Defined.





